(** * The Unleash Terraform provider: configuration, client construction
      and version gate ([internal/provider/provider.go])

    A shallow embedding of the provider's [Configure] path.  Go strings are
    byte sequences and are modelled by [string]; the process environment is
    a finite map from variable names to values; the diagnostics collection
    that the Go code mutates through a pointer is threaded explicitly: every
    function that receives [*diag.Diagnostics] takes the collection and
    returns the updated one.  Calls to [tflog] only write log lines and are
    left out. *)

From Stdlib Require Import ZArith Ascii String DecimalString.
From stdpp Require Import base tactics option list strings gmap.

Local Open Scope string_scope.
Local Open Scope Z_scope.

(** ** Go's [strings] and [os] packages, as far as the provider uses them *)

Module strings.

(** [strings.HasSuffix(s, suffix)]:
    [len(s) >= len(suffix) && s[len(s)-len(suffix):] == suffix]. *)
Definition HasSuffix (s suffix : string) : bool :=
  (String.length suffix <=? String.length s)%nat
  && String.eqb
       (substring (String.length s - String.length suffix)
                  (String.length suffix) s)
       suffix.

(** [strings.TrimSuffix(s, suffix)]: [s] without the provided trailing
    suffix, once; [s] unchanged when it does not end with [suffix]. *)
Definition TrimSuffix (s suffix : string) : string :=
  if HasSuffix s suffix
  then substring 0 (String.length s - String.length suffix) s
  else s.

(** Lower-casing of one byte of the ASCII range. *)
Definition lower_byte (c : ascii) : ascii :=
  let n := nat_of_ascii c in
  if ((65 <=? n) && (n <=? 90))%nat then ascii_of_nat (n + 32) else c.

(** [strings.ToLower] on the ASCII range (bytes outside it are kept). *)
Fixpoint ToLower (s : string) : string :=
  match s with
  | EmptyString => EmptyString
  | String c s' => String (lower_byte c) (ToLower s')
  end.

(** [strings.Split(s, sep)] for a separator [sep] of one byte: the pieces of
    [s] between the separators; one empty piece for the empty string. *)
Fixpoint Split (s : string) (sep : ascii) : list string :=
  match s with
  | EmptyString => [EmptyString]
  | String c s' =>
      if Ascii.eqb c sep then EmptyString :: Split s' sep
      else match Split s' sep with
           | piece :: pieces => String c piece :: pieces
           | [] => [String c EmptyString]
           end
  end.

End strings.

Module os.

(** The process environment. *)
Abbreviation Environ := (gmap string string).

(** [os.Getenv(key)]: the value of the variable, empty when it is unset. *)
Definition Getenv (environ : Environ) (key : string) : string :=
  default "" (environ !! key).

End os.

(** ** [basetypes.StringValue] *)

(** A framework string is null, unknown or known. *)
Inductive StringValue : Type :=
| StringNull
| StringUnknown
| StringKnown (value : string).

Definition IsNull (s : StringValue) : bool :=
  match s with
  | StringNull => true
  | _ => false
  end.

(** [ValueString] is the known value, and the empty string for a null or
    unknown value. *)
Definition ValueString (s : StringValue) : string :=
  match s with
  | StringKnown value => value
  | _ => ""
  end.

(** ** [diag.Diagnostics] *)

Module diag.

Inductive Severity : Type := SeverityError | SeverityWarning.

(** The framework's diagnostics: an error or a warning with a summary and
    a detail, possibly attached to an attribute path. *)
Inductive Diagnostic : Type :=
| ErrorDiagnostic (summary detail : string)
| WarningDiagnostic (summary detail : string)
| WithPath (path : string) (d : Diagnostic).

Fixpoint severity (d : Diagnostic) : Severity :=
  match d with
  | ErrorDiagnostic _ _ => SeverityError
  | WarningDiagnostic _ _ => SeverityWarning
  | WithPath _ d' => severity d'
  end.

Fixpoint Summary (d : Diagnostic) : string :=
  match d with
  | ErrorDiagnostic s _ | WarningDiagnostic s _ => s
  | WithPath _ d' => Summary d'
  end.


Definition is_error (d : Diagnostic) : bool :=
  match severity d with
  | SeverityError => true
  | SeverityWarning => false
  end.

(** [Equal]: same kind of diagnostic, same summary and detail (and same
    path). *)
Fixpoint Equal (d other : Diagnostic) : bool :=
  match d, other with
  | ErrorDiagnostic s t, ErrorDiagnostic s' t' =>
      String.eqb s s' && String.eqb t t'
  | WarningDiagnostic s t, WarningDiagnostic s' t' =>
      String.eqb s s' && String.eqb t t'
  | WithPath p d', WithPath p' other' =>
      String.eqb p p' && Equal d' other'
  | _, _ => false
  end.

Abbreviation Diagnostics := (list Diagnostic).

Definition Contains (diags : Diagnostics) (d : Diagnostic) : bool :=
  existsb (fun x => Equal x d) diags.

(** [Append] of one diagnostic: a duplicate is not added again. *)
Definition Append (diags : Diagnostics) (d : Diagnostic) : Diagnostics :=
  if Contains diags d then diags else diags ++ [d].

(** [Append(in...)], left to right. *)
Definition AppendAll (diags extra : Diagnostics) : Diagnostics :=
  fold_left Append extra diags.

Definition AddError (diags : Diagnostics) (summary detail : string)
  : Diagnostics :=
  Append diags (ErrorDiagnostic summary detail).

Definition AddWarning (diags : Diagnostics) (summary detail : string)
  : Diagnostics :=
  Append diags (WarningDiagnostic summary detail).

Definition HasError (diags : Diagnostics) : bool :=
  existsb is_error diags.

Definition ErrorsCount (diags : Diagnostics) : nat :=
  length (filter (fun d => is_error d = true) diags).

End diag.

(** ** [github.com/Masterminds/semver] (v1): parsing and precedence

    The provider imports the library; its [NewVersion], [Compare] and
    [String] are embedded here as the library defines them. *)

Module semver.

Record Version : Type := {
  major : Z;
  minor : Z;
  patch : Z;
  pre : string;
  metadata : string;
  original : string
}.

Definition between (lo hi : nat) (c : ascii) : bool :=
  let n := nat_of_ascii c in ((lo <=? n) && (n <=? hi))%nat.

(** [[0-9]] *)
Definition is_digit (c : ascii) : bool := between 48 57 c.

(** [[0-9A-Za-z\-]] *)
Definition is_ident (c : ascii) : bool :=
  is_digit c || between 65 90 c || between 97 122 c || Ascii.eqb c "-".

(** The longest prefix of [s] whose bytes satisfy [p], and what follows. *)
Fixpoint span (p : ascii -> bool) (s : string) : string * string :=
  match s with
  | EmptyString => (EmptyString, EmptyString)
  | String c s' =>
      if p c
      then let '(taken, rest) := span p s' in (String c taken, rest)
      else (EmptyString, s)
  end.

(** The group [(\.[0-9]+)?]: the digits after the dot and the rest; the
    empty string and [s] itself when the group takes nothing. *)
Definition dot_digits (s : string) : string * string :=
  match s with
  | String "." s' =>
      let '(digits, rest) := span is_digit s' in
      if String.eqb digits "" then ("", s) else (digits, rest)
  | _ => ("", s)
  end.

(** [[0-9A-Za-z\-]+(\.[0-9A-Za-z\-]+)*]: no piece between dots is empty. *)
Definition dotted_idents (t : string) : bool :=
  forallb (fun piece => negb (String.eqb piece "")) (strings.Split t ".").

(** The groups [(-(...))?] and [(\+(...))?]: after the [mark], identifiers
    separated by dots.  A run that is not well formed leaves a dot that
    nothing after the group can take, so the whole match fails: the group
    then takes nothing and the anchored end rejects the string. *)
Definition marked (mark : ascii) (s : string) : string * string :=
  match s with
  | String c s' =>
      if Ascii.eqb c mark
      then let '(t, rest) := span (fun x => is_ident x || Ascii.eqb x ".") s' in
           if dotted_idents t then (t, rest) else ("", s)
      else ("", s)
  | EmptyString => ("", s)
  end.

(** The submatches 1, 2, 3, 5 and 8 of the anchored [SemVerRegex]
    [v?([0-9]+)(\.[0-9]+)?(\.[0-9]+)?(-(...))?(\+(...))?] on [v], the
    second and third without their dot; [None] when [v] does not match. *)
Definition FindStringSubmatch (v : string)
  : option (string * string * string * string * string) :=
  let s0 := match v with String "v" r => r | _ => v end in
  let '(m1, s1) := span is_digit s0 in
  if String.eqb m1 "" then None
  else
    let '(m2, s2) := dot_digits s1 in
    let '(m3, s3) := dot_digits s2 in
    let '(m5, s4) := marked "-" s3 in
    let '(m8, s5) := marked "+" s4 in
    if String.eqb s5 "" then Some (m1, m2, m3, m5, m8) else None.

Definition digit_value (c : ascii) : Z := Z.of_nat (nat_of_ascii c) - 48.

(** The number a string of decimal digits denotes. *)
Definition decimal (s : string) : Z :=
  fold_left (fun acc c => 10 * acc + digit_value c) (list_ascii_of_string s) 0.

Definition quote (s : string) : string :=
  String (ascii_of_nat 34) (s +:+ String (ascii_of_nat 34) EmptyString).

(** [strconv.ParseInt(s, 10, 64)] on a non-empty string of digits: the
    value, or the error for a value that does not fit in 64 signed bits. *)
Definition ParseInt (s : string) : string + Z :=
  let n := decimal s in
  if n <=? 9223372036854775807 then inr n
  else inl ("strconv.ParseInt: parsing " +:+ quote s +:+ ": value out of range").

(** [strconv.ParseUint(s, 10, 64)]: [None] for a string that is empty, has
    a byte that is not a digit, or denotes more than 64 bits hold. *)
Definition ParseUint (s : string) : option Z :=
  if String.eqb s "" then None
  else if forallb is_digit (list_ascii_of_string s)
  then let n := decimal s in
       if n <=? 18446744073709551615 then Some n else None
  else None.

Definition segment (m : string) : string + Z :=
  if String.eqb m "" then inr 0
  else match ParseInt m with
       | inr n => inr n
       | inl err => inl ("Error parsing version segment: " +:+ err)
       end.

(** [NewVersion(v)]: the parsed version, or the text of the error. *)
Definition NewVersion (v : string) : string + Version :=
  match FindStringSubmatch v with
  | None => inl "Invalid Semantic Version"
  | Some (m1, m2, m3, m5, m8) =>
      match ParseInt m1 with
      | inl err => inl ("Error parsing version segment: " +:+ err)
      | inr ma =>
          match segment m2 with
          | inl err => inl err
          | inr mi =>
              match segment m3 with
              | inl err => inl err
              | inr pa =>
                  inr {| major := ma; minor := mi; patch := pa;
                         pre := m5; metadata := m8; original := v |}
              end
          end
      end
  end.

Definition compareSegment (v o : Z) : Z :=
  if v <? o then -1 else if o <? v then 1 else 0.

Definition comparePrePart (s o : string) : Z :=
  if String.eqb s o then 0
  else if String.eqb s "" then (if negb (String.eqb o "") then -1 else 1)
  else if String.eqb o "" then (if negb (String.eqb s "") then 1 else -1)
  else
    match ParseUint o, ParseUint s with
    | None, None => if String.ltb o s then 1 else -1
    | None, Some _ => -1
    | Some _, None => 1
    | Some oi, Some si => if oi <? si then 1 else -1
    end.

(** The loop of [comparePrerelease]: [n] iterations left, at index [i]. *)
Fixpoint comparePreParts (sparts oparts : list string) (n i : nat) : Z :=
  match n with
  | O => 0
  | S n' =>
      let stemp := nth i sparts "" in
      let otemp := nth i oparts "" in
      let d := comparePrePart stemp otemp in
      if negb (d =? 0) then d else comparePreParts sparts oparts n' (S i)
  end.

Definition comparePrerelease (v o : string) : Z :=
  let sparts := strings.Split v "." in
  let oparts := strings.Split o "." in
  let slen := length sparts in
  let olen := length oparts in
  let l := if (slen <? olen)%nat then olen else slen in
  comparePreParts sparts oparts l 0.

(** [v.Compare(o)]: -1, 0 or 1. *)
Definition Compare (v o : Version) : Z :=
  let d := compareSegment (major v) (major o) in
  if negb (d =? 0) then d else
  let d := compareSegment (minor v) (minor o) in
  if negb (d =? 0) then d else
  let d := compareSegment (patch v) (patch o) in
  if negb (d =? 0) then d else
  let ps := pre v in
  let po := pre o in
  if String.eqb ps "" && String.eqb po "" then 0
  else if String.eqb ps "" then 1
  else if String.eqb po "" then -1
  else comparePrerelease ps po.

(** [%d] *)
Definition itoa (n : Z) : string := NilZero.string_of_int (Z.to_int n).

(** [v.String()] *)
Definition String (v : Version) : string :=
  itoa (major v) +:+ "." +:+ itoa (minor v) +:+ "." +:+ itoa (patch v)
  +:+ (if String.eqb (pre v) "" then "" else "-" +:+ pre v)
  +:+ (if String.eqb (metadata v) "" then "" else "+" +:+ metadata v).

End semver.

(** ** The generated API client and the framework's provider types *)

Module http.

Record Response : Type := {
  StatusCode : Z;
  Status : string
}.

End http.

Module unleash.

(** The part of [unleash.Configuration] that [unleashClient] fills in, which
    is all that an [unleash.APIClient] is built from. *)
Record APIClient : Type := {
  URL : string;
  Description : string;
  DefaultHeader : list (string * string);
  DebugTransport : bool
}.

(** [VersionInfo.Latest]: both fields are pointers, nil when absent. *)
Record VersionSchemaLatest : Type := {
  Oss : option string;
  Enterprise : option string
}.

Record VersionSchema : Type := {
  IsLatest : bool;
  Latest : VersionSchemaLatest
}.

Record UiConfigSchema : Type := {
  Version : string;
  VersionInfo : VersionSchema
}.

(** What [client.AdminUIAPI.GetUiConfig(ctx).Execute()] returns: the decoded
    body (a pointer), the HTTP response (a pointer) and the error. *)
Record UiConfigCall : Type := {
  Body : option UiConfigSchema;
  Response : option http.Response;
  Err : option string
}.

End unleash.

(** The provider data model. *)
Record UnleashConfiguration : Type := {
  BaseUrl : StringValue;
  Authorization : StringValue
}.

Module provider.

Record MetadataResponse : Type := {
  TypeName : string;
  Version : string
}.

(** [req.Config.Get(ctx, &config)]: the decoded configuration and the
    diagnostics of the decoding. *)
Record ConfigureRequest : Type := {
  Config : UnleashConfiguration;
  ConfigDiagnostics : diag.Diagnostics
}.

Record ConfigureResponse : Type := {
  Diagnostics : diag.Diagnostics;
  DataSourceData : option unleash.APIClient;
  ResourceData : option unleash.APIClient
}.

End provider.

(** A Go call either returns or panics (here: on a nil pointer). *)
Inductive outcome (A : Type) : Type :=
| Returns (a : A)
| Panics.

Arguments Returns {A} a.
Arguments Panics {A}.

#[global] Instance outcome_bind : MBind outcome :=
  fun A B k m =>
    match m with
    | Returns a => k a
    | Panics => Panics
    end.

(** ** The provider *)

Record UnleashProvider : Type := { version : string }.

Definition Metadata (p : UnleashProvider) : provider.MetadataResponse :=
  {| provider.TypeName := "unleash"; provider.Version := version p |}.

Definition configValue (environ : os.Environ)
    (configValue : StringValue) (env : string) : string :=
  if IsNull configValue then os.Getenv environ env
  else ValueString configValue.

Definition mustHave (name value : string) (diagnostics : diag.Diagnostics)
  : diag.Diagnostics :=
  if String.eqb value ""
  then diag.AddError diagnostics
         ("Unable to find " +:+ name)
         (name +:+ " cannot be an empty string")
  else diagnostics.

(** [strings.ToLower] is the lower-casing of the ASCII range here; the
    lowered [TF_LOG] is only compared with two ASCII words. *)
Definition unleashClient (environ : os.Environ)
    (config : UnleashConfiguration) (diagnostics : diag.Diagnostics)
  : option unleash.APIClient * diag.Diagnostics :=
  let base_url :=
    strings.TrimSuffix (configValue environ (BaseUrl config) "UNLEASH_URL") "/" in
  let authorization := configValue environ (Authorization config) "AUTH_TOKEN" in
  let diagnostics := mustHave "base_url" base_url diagnostics in
  let diagnostics := mustHave "authorization" authorization diagnostics in
  if diag.HasError diagnostics then (None, diagnostics)
  else
    let logLevel := strings.ToLower (os.Getenv environ "TF_LOG") in
    let isDebug := String.eqb logLevel "debug" || String.eqb logLevel "trace" in
    (Some {| unleash.URL := base_url;
             unleash.Description := "Unleash server";
             unleash.DefaultHeader := [("Authorization", authorization)];
             unleash.DebugTransport := isDebug |},
     diagnostics).

(** [semver.NewVersion("5.6.0-0")], whose error the code drops. *)
Definition minimumVersion : semver.Version :=
  {| semver.major := 5; semver.minor := 6; semver.patch := 0;
     semver.pre := "0"; semver.metadata := "";
     semver.original := "5.6.0-0" |}.

Definition checkIsSupportedVersion (version : string) (diags : diag.Diagnostics)
  : diag.Diagnostics :=
  match semver.NewVersion version with
  | inl err =>
      diag.AddError diags
        ("Unable read unleash version from string " +:+ version) err
  | inr v =>
      if semver.Compare v minimumVersion <? 0
      then diag.AddError diags
             "Unsupported Unleash version"
             ("You're using version " +:+ version
              +:+ ", while the provider requires at least "
              +:+ semver.String minimumVersion)
      else diags
  end.

Section VersionGate.

(** The summary and detail with which a failed call is reported. *)
Variable failure : option http.Response -> option string -> string * string.

(** Modelled from the spec: [ValidateApiResponse], a helper of the provider
    package that is not among the sources at hand.  "Network/HTTP failure or
    non-200 status: fatal configuration error": a call that returned an
    error, or no response with the expected status code, adds one error
    diagnostic and is reported as invalid; any other call adds nothing and is
    reported as valid. *)
Definition ValidateApiResponse (response : option http.Response)
    (expected : Z) (diagnostics : diag.Diagnostics) (err : option string)
  : bool * diag.Diagnostics :=
  let fail :=
    let '(summary, detail) := failure response err in
    (false, diag.AddError diagnostics summary detail) in
  match err, response with
  | Some _, _ => fail
  | None, None => fail
  | None, Some r =>
      if http.StatusCode r =? expected then (true, diagnostics) else fail
  end.

(** The third argument of [AddWarning] in [versionCheck]. *)
Definition notLatestDetail (version oss enterprise : string) : string :=
  "You're using version " +:+ version
  +:+ ", the latest unleash-server is " +:+ oss
  +:+ ", while the latest enterprise version is: " +:+ enterprise.

(** [remote] is the server as the client sees it: the result of the
    [GetUiConfig] call.  A nil [client], a nil body after a valid response
    and a nil latest version under the [*] are nil-pointer panics. *)
Definition versionCheck (remote : unleash.APIClient -> unleash.UiConfigCall)
    (client : option unleash.APIClient) (diags : diag.Diagnostics)
  : outcome diag.Diagnostics :=
  match client with
  | None => Panics
  | Some c =>
      let call := remote c in
      let '(valid, diags) :=
        ValidateApiResponse (unleash.Response call) 200 diags (unleash.Err call) in
      if negb valid then Returns diags
      else
        match unleash.Body call with
        | None => Panics
        | Some unleashConfig =>
            let info := unleash.VersionInfo unleashConfig in
            diags ←
              (if negb (unleash.IsLatest info)
               then match unleash.Oss (unleash.Latest info),
                          unleash.Enterprise (unleash.Latest info) with
                    | Some oss, Some enterprise =>
                        Returns
                          (diag.AddWarning diags
                             "You're not using the latest Unleash version, consider upgrading"
                             (notLatestDetail (unleash.Version unleashConfig)
                                oss enterprise))
                    | _, _ => Panics
                    end
               else Returns diags);
            Returns (checkIsSupportedVersion (unleash.Version unleashConfig) diags)
        end
  end.

Definition setDiagnostics (resp : provider.ConfigureResponse)
    (diags : diag.Diagnostics) : provider.ConfigureResponse :=
  {| provider.Diagnostics := diags;
     provider.DataSourceData := provider.DataSourceData resp;
     provider.ResourceData := provider.ResourceData resp |}.

Definition Configure (p : UnleashProvider) (environ : os.Environ)
    (remote : unleash.APIClient -> unleash.UiConfigCall)
    (req : provider.ConfigureRequest) (resp : provider.ConfigureResponse)
  : outcome provider.ConfigureResponse :=
  let config := provider.Config req in
  let resp :=
    setDiagnostics resp
      (diag.AppendAll (provider.Diagnostics resp) (provider.ConfigDiagnostics req)) in
  if diag.HasError (provider.Diagnostics resp) then Returns resp
  else
    let '(client, diags) := unleashClient environ config (provider.Diagnostics resp) in
    let resp := setDiagnostics resp diags in
    if diag.HasError (provider.Diagnostics resp) then Returns resp
    else
      diags ← versionCheck remote client (provider.Diagnostics resp);
      let resp := setDiagnostics resp diags in
      if diag.HasError (provider.Diagnostics resp) then Returns resp
      else
        Returns {| provider.Diagnostics := provider.Diagnostics resp;
                   provider.DataSourceData := client;
                   provider.ResourceData := client |}.

End VersionGate.

(** [New(version)] returns a factory; the factory builds [&UnleashProvider{}]. *)
Definition New (version : string) : unit -> UnleashProvider :=
  fun _ => {| version := "" |}.

(** ** Sample data: the configuration of the end-to-end scenario, a response
    that starts empty, and three servers *)

Definition sampleRequest : provider.ConfigureRequest :=
  {| provider.Config := {| BaseUrl := StringKnown "https://u.example/api";
                           Authorization := StringKnown "token-x" |};
     provider.ConfigDiagnostics := [] |}.

Definition sampleClient : unleash.APIClient :=
  {| unleash.URL := "https://u.example/api";
     unleash.Description := "Unleash server";
     unleash.DefaultHeader := [("Authorization", "token-x")];
     unleash.DebugTransport := false |}.

Definition emptyResponse : provider.ConfigureResponse :=
  {| provider.Diagnostics := [];
     provider.DataSourceData := None;
     provider.ResourceData := None |}.

Definition sampleFailure (response : option http.Response) (err : option string)
  : string * string :=
  ("Unable to read the Unleash configuration",
   match err, response with
   | Some e, _ => e
   | None, Some r => http.Status r
   | None, None => ""
   end).

(** A server that answers with version 5.7.0 and says it is not the latest. *)
Definition outdatedServer (c : unleash.APIClient) : unleash.UiConfigCall :=
  {| unleash.Body :=
       Some {| unleash.Version := "5.7.0";
               unleash.VersionInfo :=
                 {| unleash.IsLatest := false;
                    unleash.Latest := {| unleash.Oss := Some "5.8.0";
                                         unleash.Enterprise := Some "5.8.1" |} |} |};
     unleash.Response := Some {| http.StatusCode := 200; http.Status := "200 OK" |};
     unleash.Err := None |}.


(** A server that answers 503. *)
Definition unavailableServer (c : unleash.APIClient) : unleash.UiConfigCall :=
  {| unleash.Body := None;
     unleash.Response :=
       Some {| http.StatusCode := 503; http.Status := "503 Service Unavailable" |};
     unleash.Err := None |}.

(** The contract of the configuration resolver in the specification's words:
    the configuration value if present, otherwise the environment variable's
    value, otherwise the empty string. *)
Definition resolution (config environment : option string) : string :=
  match config, environment with
  | Some value, _ => value
  | None, Some value => value
  | None, None => ""
  end.

(** The value of an attribute that is present (not null). *)
Definition attribute (v : StringValue) : option string :=
  if IsNull v then None else Some (ValueString v).

(** The warning that [versionCheck] adds for a server that is not the latest. *)
Definition notLatestWarning (version oss enterprise : string) : diag.Diagnostic :=
  diag.WarningDiagnostic
    "You're not using the latest Unleash version, consider upgrading"
    (notLatestDetail version oss enterprise).

(** The call to the metadata endpoint failed: a transport error, or no
    response with status 200. *)
Definition callFails (call : unleash.UiConfigCall) : Prop :=
  is_Some (unleash.Err call)
  \/ forall r, unleash.Response call = Some r -> http.StatusCode r <> 200.

(** The diagnostic that [mustHave] adds for the field [name]. *)
Definition missingValue (name : string) : diag.Diagnostic :=
  diag.ErrorDiagnostic ("Unable to find " +:+ name)
                       (name +:+ " cannot be an empty string").

(** The configuration with every attribute replaced by what it resolves to
    in the environment. *)
Definition resolvedConfiguration (environ : os.Environ)
    (config : UnleashConfiguration) : UnleashConfiguration :=
  {| BaseUrl := StringKnown (configValue environ (BaseUrl config) "UNLEASH_URL");
     Authorization :=
       StringKnown (configValue environ (Authorization config) "AUTH_TOKEN") |}.

(** The call to the metadata endpoint succeeded: no transport error and a
    response with status 200. *)
Definition callValid (call : unleash.UiConfigCall) : Prop :=
  unleash.Err call = None
  /\ exists r, unleash.Response call = Some r /\ http.StatusCode r = 200.

(** A decoded body under which [versionCheck] dereferences no nil pointer:
    the latest versions are there whenever the server is not the latest. *)
Definition latestPresent (unleashConfig : unleash.UiConfigSchema) : Prop :=
  unleash.IsLatest (unleash.VersionInfo unleashConfig) = false ->
  is_Some (unleash.Oss (unleash.Latest (unleash.VersionInfo unleashConfig)))
  /\ is_Some (unleash.Enterprise (unleash.Latest (unleash.VersionInfo unleashConfig))).

(** A server whose valid answers carry a body with the pointers that
    [versionCheck] dereferences. *)
Definition answersInFull (call : unleash.UiConfigCall) : Prop :=
  callValid call ->
  exists unleashConfig,
    unleash.Body call = Some unleashConfig /\ latestPresent unleashConfig.

(** The error that [checkIsSupportedVersion] adds for a version below the
    minimum. *)
Definition unsupportedVersion (version : string) : diag.Diagnostic :=
  diag.ErrorDiagnostic "Unsupported Unleash version"
    ("You're using version " +:+ version
     +:+ ", while the provider requires at least "
     +:+ semver.String minimumVersion).

(** A server that answers with version 5.8.0 and says it is the latest,
    without naming the latest versions. *)
Definition latestServer (c : unleash.APIClient) : unleash.UiConfigCall :=
  {| unleash.Body :=
       Some {| unleash.Version := "5.8.0";
               unleash.VersionInfo :=
                 {| unleash.IsLatest := true;
                    unleash.Latest := {| unleash.Oss := None;
                                         unleash.Enterprise := None |} |} |};
     unleash.Response := Some {| http.StatusCode := 200; http.Status := "200 OK" |};
     unleash.Err := None |}.

(** A server that answers with version 5.5.9 and says it is not the latest. *)
Definition oldServer (c : unleash.APIClient) : unleash.UiConfigCall :=
  {| unleash.Body :=
       Some {| unleash.Version := "5.5.9";
               unleash.VersionInfo :=
                 {| unleash.IsLatest := false;
                    unleash.Latest := {| unleash.Oss := Some "5.8.0";
                                         unleash.Enterprise := Some "5.8.1" |} |} |};
     unleash.Response := Some {| http.StatusCode := 200; http.Status := "200 OK" |};
     unleash.Err := None |}.

Section VersionCheckPaths.

Variable failure : option http.Response -> option string -> string * string.
Variable remote : unleash.APIClient -> unleash.UiConfigCall.

(** The ways through [versionCheck] for a client that is there. *)
Inductive versionCheckPath (c : unleash.APIClient) (diags : diag.Diagnostics)
  : outcome diag.Diagnostics -> Prop :=
| path_call_fails :
    callFails (remote c) ->
    versionCheckPath c diags
      (Returns (diag.AddError diags
                  (failure (unleash.Response (remote c)) (unleash.Err (remote c))).1
                  (failure (unleash.Response (remote c)) (unleash.Err (remote c))).2))
| path_no_body :
    callValid (remote c) ->
    unleash.Body (remote c) = None ->
    versionCheckPath c diags Panics
| path_latest unleashConfig :
    callValid (remote c) ->
    unleash.Body (remote c) = Some unleashConfig ->
    unleash.IsLatest (unleash.VersionInfo unleashConfig) = true ->
    versionCheckPath c diags
      (Returns (checkIsSupportedVersion (unleash.Version unleashConfig) diags))
| path_not_latest unleashConfig oss enterprise :
    callValid (remote c) ->
    unleash.Body (remote c) = Some unleashConfig ->
    unleash.IsLatest (unleash.VersionInfo unleashConfig) = false ->
    unleash.Oss (unleash.Latest (unleash.VersionInfo unleashConfig)) = Some oss ->
    unleash.Enterprise (unleash.Latest (unleash.VersionInfo unleashConfig))
    = Some enterprise ->
    versionCheckPath c diags
      (Returns (checkIsSupportedVersion (unleash.Version unleashConfig)
                  (diag.Append diags
                     (notLatestWarning (unleash.Version unleashConfig)
                        oss enterprise))))
| path_nil_latest unleashConfig :
    callValid (remote c) ->
    unleash.Body (remote c) = Some unleashConfig ->
    unleash.IsLatest (unleash.VersionInfo unleashConfig) = false ->
    unleash.Oss (unleash.Latest (unleash.VersionInfo unleashConfig)) = None
    \/ unleash.Enterprise (unleash.Latest (unleash.VersionInfo unleashConfig))
       = None ->
    versionCheckPath c diags Panics.

End VersionCheckPaths.

(** * Properties *)

(** ** Strings *)

Section StringFacts.

Implicit Types s t suffix : string.

Lemma append_nil t : "" +:+ t = t.
Proof. reflexivity. Qed.

Lemma append_cons c s t : String c s +:+ t = String c (s +:+ t).
Proof. reflexivity. Qed.

Lemma length_append s t :
  String.length (s +:+ t) = (String.length s + String.length t)%nat.
Proof.
  induction s as [|c s IH]; [done |].
  rewrite append_cons. simpl. by rewrite IH.
Qed.

Lemma substring_all s : substring 0 (String.length s) s = s.
Proof. induction s as [|c s IH]; simpl; [done | by rewrite IH]. Qed.

Lemma substring_append_prefix s t :
  substring 0 (String.length s) (s +:+ t) = s.
Proof.
  induction s as [|c s IH].
  - rewrite append_nil. by destruct t.
  - rewrite append_cons. simpl. by rewrite IH.
Qed.

Lemma substring_append_suffix s t :
  substring (String.length s) (String.length t) (s +:+ t) = t.
Proof.
  induction s as [|c s IH].
  - rewrite append_nil. apply substring_all.
  - rewrite append_cons. simpl. done.
Qed.

Lemma substring_split s (n : nat) :
  (n <= String.length s)%nat ->
  s = substring 0 n s +:+ substring n (String.length s - n) s.
Proof.
  revert n. induction s as [|c s IH]; intros [|n] Hn; simpl in *.
  - done.
  - lia.
  - by rewrite append_nil, substring_all.
  - rewrite append_cons. f_equal. apply IH. lia.
Qed.

Lemma append_assoc s t u : (s +:+ t) +:+ u = s +:+ (t +:+ u).
Proof.
  induction s as [|c s IH]; [done |].
  rewrite !append_cons. by rewrite IH.
Qed.

Lemma append_inj_l s1 s2 t : s1 +:+ t = s2 +:+ t -> s1 = s2.
Proof.
  revert s2. induction s1 as [|c s1 IH]; intros [|c2 s2] H.
  - done.
  - apply (f_equal String.length) in H.
    rewrite append_nil, append_cons in H. simpl in H.
    rewrite length_append in H. lia.
  - apply (f_equal String.length) in H.
    rewrite append_nil, append_cons in H. simpl in H.
    rewrite length_append in H. lia.
  - rewrite !append_cons in H. injection H as -> H. f_equal. by apply IH.
Qed.

(** [HasSuffix] holds exactly of the strings that are something followed by
    the suffix. *)
Lemma HasSuffix_true s suffix :
  strings.HasSuffix s suffix = true <-> exists t, s = t +:+ suffix.
Proof.
  unfold strings.HasSuffix. rewrite andb_true_iff, Nat.leb_le, String.eqb_eq.
  split.
  - intros [Hle Heq].
    exists (substring 0 (String.length s - String.length suffix) s).
    pose proof (substring_split s (String.length s - String.length suffix)) as H.
    replace (String.length s - (String.length s - String.length suffix))%nat
      with (String.length suffix) in H by lia.
    rewrite Heq in H. apply H. lia.
  - intros [t ->]. rewrite length_append. split; [lia |].
    replace (String.length t + String.length suffix - String.length suffix)%nat
      with (String.length t) by lia.
    apply substring_append_suffix.
Qed.

Lemma HasSuffix_false s suffix :
  strings.HasSuffix s suffix = false <-> forall t, s <> t +:+ suffix.
Proof.
  rewrite <- not_true_iff_false, HasSuffix_true. split.
  - intros H t Ht. apply H. by exists t.
  - intros H [t Ht]. by apply (H t).
Qed.

Lemma TrimSuffix_append t suffix :
  strings.TrimSuffix (t +:+ suffix) suffix = t.
Proof.
  unfold strings.TrimSuffix.
  assert (strings.HasSuffix (t +:+ suffix) suffix = true) as ->
    by (apply HasSuffix_true; by exists t).
  rewrite length_append.
  replace (String.length t + String.length suffix - String.length suffix)%nat
    with (String.length t) by lia.
  apply substring_append_prefix.
Qed.

Lemma TrimSuffix_other s suffix :
  strings.HasSuffix s suffix = false -> strings.TrimSuffix s suffix = s.
Proof. unfold strings.TrimSuffix. by intros ->. Qed.

(** What is left after trimming one slash ends with a slash exactly when the
    string ended with two. *)
Lemma HasSuffix_TrimSuffix_slash s :
  strings.HasSuffix (strings.TrimSuffix s "/") "/" = strings.HasSuffix s "//".
Proof.
  destruct (strings.HasSuffix s "/") eqn:Hs.
  - apply HasSuffix_true in Hs as [t ->]. rewrite TrimSuffix_append.
    destruct (strings.HasSuffix t "/") eqn:Ht.
    + apply HasSuffix_true in Ht as [u ->]. symmetry. apply HasSuffix_true.
      exists u. by rewrite append_assoc.
    + symmetry. apply HasSuffix_false. intros u Hu.
      rewrite HasSuffix_false in Ht. apply (Ht u).
      change "//" with ("/" +:+ "/") in Hu. rewrite <- append_assoc in Hu.
      by apply append_inj_l in Hu.
  - rewrite TrimSuffix_other, Hs by done. symmetry.
    apply HasSuffix_false. intros u Hu. rewrite HasSuffix_false in Hs.
    apply (Hs (u +:+ "/")). by rewrite append_assoc.
Qed.

Lemma TrimSuffix_empty suffix : strings.TrimSuffix "" suffix = "".
Proof. unfold strings.TrimSuffix. by destruct (strings.HasSuffix "" suffix), suffix. Qed.

End StringFacts.

(** ** The diagnostics collection *)

Section DiagnosticsFacts.

Implicit Types (d : diag.Diagnostic) (diags : diag.Diagnostics).

Lemma Equal_eq d d' : diag.Equal d d' = true <-> d = d'.
Proof.
  revert d'. induction d as [s t | s t | p d IH]; intros [s' t' | s' t' | p' d'];
    simpl; try (split; [discriminate | congruence]).
  - rewrite andb_true_iff, !String.eqb_eq. split; [intros [-> ->] | intros [= -> ->]]; done.
  - rewrite andb_true_iff, !String.eqb_eq. split; [intros [-> ->] | intros [= -> ->]]; done.
  - rewrite andb_true_iff, String.eqb_eq, IH.
    split; [intros [-> ->] | intros [= -> ->]]; done.
Qed.

Lemma Contains_elem_of diags d : diag.Contains diags d = true <-> d ∈ diags.
Proof.
  unfold diag.Contains. rewrite existsb_exists. split.
  - intros (x & Hx & Heq). apply Equal_eq in Heq as ->. by apply list_elem_of_In.
  - intros Hd. exists d. split; [by apply list_elem_of_In | by apply Equal_eq].
Qed.

Lemma Append_fresh diags d : d ∉ diags -> diag.Append diags d = (diags ++ [d])%list.
Proof.
  intros Hd. unfold diag.Append.
  destruct (diag.Contains diags d) eqn:Hc; [| done].
  by apply Contains_elem_of in Hc.
Qed.

Lemma Append_present diags d : d ∈ diags -> diag.Append diags d = diags.
Proof.
  intros Hd. unfold diag.Append. by apply Contains_elem_of in Hd as ->.
Qed.

Lemma Append_elem_of diags d : d ∈ diag.Append diags d.
Proof.
  unfold diag.Append. destruct (diag.Contains diags d) eqn:Hc.
  - by apply Contains_elem_of.
  - apply elem_of_app. right. by apply list_elem_of_singleton.
Qed.

Lemma Append_prefix diags d : diags `prefix_of` diag.Append diags d.
Proof.
  unfold diag.Append. destruct (diag.Contains diags d).
  - done.
  - by apply prefix_app_r.
Qed.

Lemma Append_keeps diags d d' : d' ∈ diags -> d' ∈ diag.Append diags d.
Proof. intros H. by eapply elem_of_prefix, Append_prefix. Qed.

Lemma HasError_true diags :
  diag.HasError diags = true <-> exists d, d ∈ diags /\ diag.is_error d = true.
Proof.
  unfold diag.HasError. rewrite existsb_exists.
  split; intros (d & Hd & He); exists d; split; try done; by apply list_elem_of_In.
Qed.

Lemma HasError_Append diags d :
  diag.HasError (diag.Append diags d) = diag.HasError diags || diag.is_error d.
Proof.
  unfold diag.Append. destruct (diag.Contains diags d) eqn:Hc.
  - destruct (diag.is_error d) eqn:He; [| by rewrite orb_false_r].
    rewrite orb_true_r. apply HasError_true. exists d.
    split; [by apply Contains_elem_of | done].
  - unfold diag.HasError. rewrite existsb_app. simpl. by rewrite orb_false_r.
Qed.

Lemma HasError_free diags d :
  diag.HasError diags = false -> diag.is_error d = true -> d ∉ diags.
Proof.
  intros Hno He Hd. apply not_true_iff_false in Hno. apply Hno.
  apply HasError_true. by exists d.
Qed.

Lemma ErrorsCount_app diags diags' :
  diag.ErrorsCount (diags ++ diags')%list
  = (diag.ErrorsCount diags + diag.ErrorsCount diags')%nat.
Proof. unfold diag.ErrorsCount. by rewrite filter_app, length_app. Qed.

Lemma ErrorsCount_Append_fresh diags d :
  d ∉ diags -> diag.is_error d = true ->
  diag.ErrorsCount (diag.Append diags d) = S (diag.ErrorsCount diags).
Proof.
  intros Hd He. rewrite Append_fresh, ErrorsCount_app by done.
  unfold diag.ErrorsCount at 2. rewrite filter_cons_True by done. simpl. lia.
Qed.

Lemma ErrorsCount_Append_le diags d :
  (diag.ErrorsCount diags <= diag.ErrorsCount (diag.Append diags d))%nat.
Proof.
  unfold diag.Append. destruct (diag.Contains diags d); [done |].
  rewrite ErrorsCount_app. lia.
Qed.

Lemma mustHave_empty name diagnostics :
  mustHave name "" diagnostics = diag.Append diagnostics (missingValue name).
Proof. reflexivity. Qed.

Lemma mustHave_prefix name value diagnostics :
  diagnostics `prefix_of` mustHave name value diagnostics.
Proof.
  unfold mustHave. destruct (String.eqb value ""); [apply Append_prefix | done].
Qed.

Lemma mustHave_ErrorsCount name value diagnostics :
  (diag.ErrorsCount diagnostics
   <= diag.ErrorsCount (mustHave name value diagnostics))%nat.
Proof.
  unfold mustHave. destruct (String.eqb value ""); [apply ErrorsCount_Append_le | done].
Qed.

Lemma HasError_prefix diags diags' :
  diags `prefix_of` diags' -> diag.HasError diags = true ->
  diag.HasError diags' = true.
Proof.
  intros Hp. rewrite !HasError_true. intros (d & Hd & He).
  exists d. split; [by eapply elem_of_prefix | done].
Qed.

End DiagnosticsFacts.

(** ** Configuration resolution *)

(** C8: [configValue] returns the configuration value when the attribute is
    present (not null), otherwise the value of the environment variable, and
    the empty string when that variable is not set either. *)
Theorem configValue_resolution (environ : os.Environ) (v : StringValue) (env : string) :
  configValue environ v env = resolution (attribute v) (environ !! env).
Proof.
  unfold configValue, resolution, attribute, os.Getenv.
  destruct (IsNull v); [| done]. by destruct (environ !! env).
Qed.

Example configValue_from_config :
  configValue {[ "UNLEASH_URL" := "https://u.example" ]}
    (StringKnown "https://other.example") "UNLEASH_URL"
  = "https://other.example".
Proof. reflexivity. Qed.

Example configValue_from_environment :
  configValue {[ "UNLEASH_URL" := "https://u.example" ]} StringNull "UNLEASH_URL"
  = "https://u.example".
Proof. reflexivity. Qed.

Example configValue_unset : configValue ∅ StringNull "UNLEASH_URL" = "".
Proof. reflexivity. Qed.

(** C9: an attribute that is set, even to the empty string, never falls back
    to the environment: the result is the attribute's own value whatever the
    environment holds, so an explicitly empty attribute resolves to the empty
    string although the variable is set. *)
Theorem configValue_empty_no_fallback (environ : os.Environ) (env x : string) :
  environ !! env = Some x ->
  configValue environ (StringKnown "") env = ""
  /\ os.Getenv environ env = x
  /\ (forall v environ', IsNull v = false ->
       configValue environ v env = configValue environ' v env)
  /\ (forall v, configValue environ v env <> ValueString v -> v = StringNull).
Proof.
  intros Hx. repeat split.
  - unfold os.Getenv. by rewrite Hx.
  - intros v environ' Hv. unfold configValue. by rewrite Hv.
  - intros [| |value] Hv; unfold configValue in Hv; simpl in Hv;
      try done; by destruct Hv.
Qed.

Lemma configValue_empty_no_fallback_witness :
  configValue {[ "AUTH_TOKEN" := "token-x" ]} (StringKnown "") "AUTH_TOKEN" = "".
Proof.
  apply (configValue_empty_no_fallback {[ "AUTH_TOKEN" := "token-x" ]} "AUTH_TOKEN" "token-x").
  reflexivity.
Defined.

(** ** The client factory *)

Lemma unleashClient_unfold environ config diagnostics :
  unleashClient environ config diagnostics =
  let base_url :=
    strings.TrimSuffix (configValue environ (BaseUrl config) "UNLEASH_URL") "/" in
  let authorization := configValue environ (Authorization config) "AUTH_TOKEN" in
  let checked :=
    mustHave "authorization" authorization (mustHave "base_url" base_url diagnostics) in
  if diag.HasError checked then (None, checked)
  else (Some {| unleash.URL := base_url;
                unleash.Description := "Unleash server";
                unleash.DefaultHeader := [("Authorization", authorization)];
                unleash.DebugTransport :=
                  String.eqb (strings.ToLower (os.Getenv environ "TF_LOG")) "debug"
                  || String.eqb (strings.ToLower (os.Getenv environ "TF_LOG")) "trace" |},
        checked).
Proof. reflexivity. Qed.

(** A client is returned exactly when the collection has no error after the
    two checks. *)
Lemma unleashClient_Some environ config diagnostics client diagnostics' :
  unleashClient environ config diagnostics = (Some client, diagnostics') ->
  diag.HasError diagnostics' = false
  /\ unleash.URL client
     = strings.TrimSuffix (configValue environ (BaseUrl config) "UNLEASH_URL") "/".
Proof.
  rewrite unleashClient_unfold. cbv zeta.
  destruct (diag.HasError _) eqn:He; [done |].
  intros [= <- <-]. by split.
Qed.

(** C1, as the specification words it, fails: a base URL that ends with two
    slashes gives a client whose URL still ends with a slash. *)
Lemma unleashClient_double_slash :
  unleashClient ∅
    {| BaseUrl := StringKnown "https://u.example//";
       Authorization := StringKnown "token-x" |} []
  = (Some {| unleash.URL := "https://u.example/";
             unleash.Description := "Unleash server";
             unleash.DefaultHeader := [("Authorization", "token-x")];
             unleash.DebugTransport := false |}, [])
  /\ strings.HasSuffix "https://u.example/" "/" = true.
Proof. split; reflexivity. Qed.

(** C1, amended: for every valid configuration the client's base URL is the
    resolved base URL with one trailing slash removed, if it has one; it ends
    with a slash exactly when the resolved base URL ends with two, so it has
    no trailing slash whenever the input has at most one. *)
Theorem unleashClient_base_url_trimmed_once
    environ config diagnostics client diagnostics' :
  unleashClient environ config diagnostics = (Some client, diagnostics') ->
  let resolved := configValue environ (BaseUrl config) "UNLEASH_URL" in
  unleash.URL client = strings.TrimSuffix resolved "/"
  /\ (forall t, resolved = t +:+ "/" -> unleash.URL client = t)
  /\ (strings.HasSuffix resolved "/" = false -> unleash.URL client = resolved)
  /\ strings.HasSuffix (unleash.URL client) "/" = strings.HasSuffix resolved "//"
  /\ (strings.HasSuffix resolved "//" = false ->
      strings.HasSuffix (unleash.URL client) "/" = false).
Proof.
  intros H resolved. apply unleashClient_Some in H as [_ Hurl].
  fold resolved in Hurl. rewrite Hurl. repeat split.
  - intros t ->. apply TrimSuffix_append.
  - apply TrimSuffix_other.
  - apply HasSuffix_TrimSuffix_slash.
  - intros Hno. by rewrite HasSuffix_TrimSuffix_slash.
Qed.

Lemma unleashClient_base_url_trimmed_once_witness :
  unleash.URL {| unleash.URL := "https://u.example/api";
                 unleash.Description := "Unleash server";
                 unleash.DefaultHeader := [("Authorization", "token-x")];
                 unleash.DebugTransport := false |}
  = strings.TrimSuffix "https://u.example/api/" "/"
  /\ strings.HasSuffix "https://u.example/api" "/" = false.
Proof.
  pose proof (unleashClient_base_url_trimmed_once ∅
    {| BaseUrl := StringKnown "https://u.example/api/";
       Authorization := StringKnown "token-x" |} [] _ _ eq_refl) as H.
  split; [exact (proj1 H) |].
  apply (proj2 (proj2 (proj2 (proj2 H)))). reflexivity.
Defined.

Lemma missingValue_is_error name : diag.is_error (missingValue name) = true.
Proof. reflexivity. Qed.

(** C2: when the base URL or the authorization resolves to the empty string,
    [unleashClient] returns no client and leaves an error diagnostic for each
    missing field in the collection, which it only extends; called on a
    collection without errors, as [Configure] does, the number of errors
    grows. *)
Theorem unleashClient_missing_value environ config diagnostics :
  configValue environ (BaseUrl config) "UNLEASH_URL" = ""
  \/ configValue environ (Authorization config) "AUTH_TOKEN" = "" ->
  let result := unleashClient environ config diagnostics in
  result.1 = None
  /\ diag.HasError result.2 = true
  /\ diagnostics `prefix_of` result.2
  /\ (configValue environ (BaseUrl config) "UNLEASH_URL" = "" ->
      missingValue "base_url" ∈ result.2)
  /\ (configValue environ (Authorization config) "AUTH_TOKEN" = "" ->
      missingValue "authorization" ∈ result.2)
  /\ (diag.HasError diagnostics = false ->
      (diag.ErrorsCount diagnostics < diag.ErrorsCount result.2)%nat).
Proof.
  intros Hempty result. subst result. rewrite unleashClient_unfold. cbv zeta.
  set (base_url := strings.TrimSuffix _ "/").
  set (authorization := configValue environ (Authorization config) "AUTH_TOKEN").
  set (d1 := mustHave "base_url" base_url diagnostics).
  set (d2 := mustHave "authorization" authorization d1).
  assert (Hbase : configValue environ (BaseUrl config) "UNLEASH_URL" = "" ->
                  d1 = diag.Append diagnostics (missingValue "base_url")).
  { intros Hb. subst d1 base_url. by rewrite Hb, TrimSuffix_empty. }
  assert (Hauth : authorization = "" ->
                  d2 = diag.Append d1 (missingValue "authorization")).
  { intros Ha. subst d2. by rewrite Ha. }
  assert (Hp1 : diagnostics `prefix_of` d1) by apply mustHave_prefix.
  assert (Hp2 : d1 `prefix_of` d2) by apply mustHave_prefix.
  assert (He : diag.HasError d2 = true).
  { destruct Hempty as [Hb | Ha].
    - apply (HasError_prefix d1); [done |].
      rewrite (Hbase Hb), HasError_Append. by rewrite orb_true_r.
    - rewrite (Hauth Ha), HasError_Append. by rewrite orb_true_r. }
  rewrite He. simpl. repeat split.
  - done.
  - by etrans.
  - intros Hb. eapply elem_of_prefix; [| exact Hp2].
    rewrite (Hbase Hb). apply Append_elem_of.
  - intros Ha. rewrite (Hauth Ha). apply Append_elem_of.
  - intros Hno.
    assert (Hle1 : (diag.ErrorsCount diagnostics <= diag.ErrorsCount d1)%nat)
      by apply mustHave_ErrorsCount.
    assert (Hle2 : (diag.ErrorsCount d1 <= diag.ErrorsCount d2)%nat)
      by apply mustHave_ErrorsCount.
    destruct (String.eqb base_url "") eqn:Hb.
    + assert (d1 = diag.Append diagnostics (missingValue "base_url")) as Hd1
        by (subst d1; unfold mustHave; by rewrite Hb).
      rewrite Hd1, ErrorsCount_Append_fresh in Hle2; [lia | | done].
      by apply HasError_free.
    + assert (d1 = diagnostics) as Hd1 by (subst d1; unfold mustHave; by rewrite Hb).
      destruct Hempty as [Hb' | Ha].
      * subst base_url. rewrite Hb', TrimSuffix_empty in Hb. done.
      * rewrite (Hauth Ha), Hd1, ErrorsCount_Append_fresh; [lia | | done].
        by apply HasError_free.
Qed.

Lemma unleashClient_missing_value_witness :
  (unleashClient ∅ {| BaseUrl := StringKnown "https://u.example";
                      Authorization := StringNull |} []).1 = None
  /\ missingValue "authorization"
     ∈ (unleashClient ∅ {| BaseUrl := StringKnown "https://u.example";
                           Authorization := StringNull |} []).2.
Proof.
  pose proof (unleashClient_missing_value ∅
    {| BaseUrl := StringKnown "https://u.example"; Authorization := StringNull |}
    [] (or_intror eq_refl)) as H.
  split; [exact (proj1 H) |].
  apply (proj1 (proj2 (proj2 (proj2 (proj2 H))))). reflexivity.
Defined.

(** C3: when both the base URL and the authorization resolve to the empty
    string, [unleashClient] adds the error for [base_url] and then the error
    for [authorization] before it returns: two different diagnostics, both
    in the collection that comes back, appended in that order to a
    collection that had neither. *)
Theorem unleashClient_reports_both environ config diagnostics :
  configValue environ (BaseUrl config) "UNLEASH_URL" = "" ->
  configValue environ (Authorization config) "AUTH_TOKEN" = "" ->
  unleashClient environ config diagnostics
  = (None, diag.AddError
             (diag.AddError diagnostics
                "Unable to find base_url" "base_url cannot be an empty string")
             "Unable to find authorization"
             "authorization cannot be an empty string")
  /\ missingValue "base_url" ∈ (unleashClient environ config diagnostics).2
  /\ missingValue "authorization" ∈ (unleashClient environ config diagnostics).2
  /\ missingValue "base_url" <> missingValue "authorization"
  /\ (missingValue "base_url" ∉ diagnostics ->
      missingValue "authorization" ∉ diagnostics ->
      (unleashClient environ config diagnostics).2
      = (diagnostics ++ [missingValue "base_url"; missingValue "authorization"])%list).
Proof.
  intros Hb Ha.
  assert (Heq : unleashClient environ config diagnostics
    = (None, diag.Append (diag.Append diagnostics (missingValue "base_url"))
                         (missingValue "authorization"))).
  { rewrite unleashClient_unfold. cbv zeta. rewrite Hb, Ha, TrimSuffix_empty.
    rewrite !mustHave_empty.
    by rewrite HasError_Append, missingValue_is_error, orb_true_r. }
  rewrite Heq. simpl. repeat split.
  - apply Append_keeps, Append_elem_of.
  - apply Append_elem_of.
  - discriminate.
  - intros Hnb Hna. rewrite (Append_fresh diagnostics) by done.
    rewrite Append_fresh.
    + by rewrite <- app_assoc.
    + rewrite elem_of_app, list_elem_of_singleton. intros [? | ?]; done.
Qed.

Lemma unleashClient_reports_both_witness :
  unleashClient ∅ {| BaseUrl := StringNull; Authorization := StringKnown "" |} []
  = (None, [missingValue "base_url"; missingValue "authorization"]).
Proof.
  exact (proj1 (unleashClient_reports_both ∅
    {| BaseUrl := StringNull; Authorization := StringKnown "" |} [] eq_refl eq_refl)).
Defined.

(** ** The provider factory *)

(** C10: [New] ignores its argument: the provider it builds has the empty
    string as version, and that is the version [Metadata] reports. *)
Theorem New_ignores_version (v : string) :
  version (New v ()) = ""
  /\ provider.Version (Metadata (New v ())) = ""
  /\ provider.TypeName (Metadata (New v ())) = "unleash"
  /\ forall v', New v () = New v' ().
Proof. repeat split. Qed.

(** ** The version gate *)

Lemma minimumVersion_parsed : semver.NewVersion "5.6.0-0" = inr minimumVersion.
Proof. reflexivity. Qed.

Lemma minimumVersion_String : semver.String minimumVersion = "5.6.0-0".
Proof. reflexivity. Qed.

Lemma compareSegment_cases (v o : Z) :
  (v < o /\ semver.compareSegment v o = -1)
  \/ (v = o /\ semver.compareSegment v o = 0)
  \/ (o < v /\ semver.compareSegment v o = 1).
Proof.
  unfold semver.compareSegment.
  destruct (Z.ltb_spec v o); [by left |].
  destruct (Z.ltb_spec o v); [by right; right |].
  right; left. split; [lia | done].
Qed.

(** For a release (a version without pre-release part) being below the
    minimum is being below 5.6.0 in the order of the three numbers. *)
Lemma Compare_release_minimum (v : semver.Version) :
  semver.pre v = "" ->
  semver.Compare v minimumVersion < 0 <->
  semver.major v < 5
  \/ (semver.major v = 5
      /\ (semver.minor v < 6 \/ (semver.minor v = 6 /\ semver.patch v < 0))).
Proof.
  intros Hpre. unfold semver.Compare. rewrite Hpre. simpl.
  destruct (compareSegment_cases (semver.major v) 5) as [[? ->] | [[? ->] | [? ->]]];
    simpl; [lia | | lia].
  destruct (compareSegment_cases (semver.minor v) 6) as [[? ->] | [[? ->] | [? ->]]];
    simpl; [lia | | lia].
  destruct (compareSegment_cases (semver.patch v) 0) as [[? ->] | [[? ->] | [? ->]]];
    simpl; lia.
Qed.

Example NewVersion_5_5_9 :
  semver.NewVersion "5.5.9"
  = inr {| semver.major := 5; semver.minor := 5; semver.patch := 9;
           semver.pre := ""; semver.metadata := ""; semver.original := "5.5.9" |}.
Proof. reflexivity. Qed.

Example checkIsSupportedVersion_5_5_9 :
  checkIsSupportedVersion "5.5.9" []
  = [diag.ErrorDiagnostic "Unsupported Unleash version"
       "You're using version 5.5.9, while the provider requires at least 5.6.0-0"].
Proof. reflexivity. Qed.

Example checkIsSupportedVersion_5_6_0 : checkIsSupportedVersion "5.6.0" [] = [].
Proof. reflexivity. Qed.

Example checkIsSupportedVersion_5_7_0 : checkIsSupportedVersion "5.7.0" [] = [].
Proof. reflexivity. Qed.

(** The pre-releases of 5.6.0 are accepted: the minimum is 5.6.0-0. *)
Example checkIsSupportedVersion_5_6_0_beta :
  checkIsSupportedVersion "5.6.0-beta.1" [] = [].
Proof. reflexivity. Qed.

(** C4: a version string that parses to a version below the minimum (in the
    order of [Compare]) gets the error that names the given version and the
    minimum, 5.6.0-0; a version equal to or above the minimum gets
    nothing. *)
Theorem checkIsSupportedVersion_threshold version v diags :
  semver.NewVersion version = inr v ->
  let unsupported :=
    diag.ErrorDiagnostic "Unsupported Unleash version"
      ("You're using version " +:+ version
       +:+ ", while the provider requires at least 5.6.0-0") in
  (semver.Compare v minimumVersion < 0 ->
   checkIsSupportedVersion version diags = diag.Append diags unsupported
   /\ unsupported ∈ checkIsSupportedVersion version diags
   /\ diag.is_error unsupported = true
   /\ diag.HasError (checkIsSupportedVersion version diags) = true)
  /\ (0 <= semver.Compare v minimumVersion ->
      checkIsSupportedVersion version diags = diags).
Proof.
  intros Hv unsupported. unfold checkIsSupportedVersion. rewrite Hv.
  change (semver.String minimumVersion) with "5.6.0-0".
  destruct (Z.ltb_spec (semver.Compare v minimumVersion) 0) as [Hlt | Hge].
  - split; [| lia]. intros _. fold unsupported. unfold diag.AddError.
    repeat split.
    + apply Append_elem_of.
    + by rewrite HasError_Append, orb_true_r.
  - split; [lia | done].
Qed.

Lemma checkIsSupportedVersion_threshold_witness :
  checkIsSupportedVersion "5.5.9" []
  = [diag.ErrorDiagnostic "Unsupported Unleash version"
       "You're using version 5.5.9, while the provider requires at least 5.6.0-0"]
  /\ checkIsSupportedVersion "5.6.0" [] = []
  /\ checkIsSupportedVersion "5.7.0" [] = [].
Proof.
  split; [| split].
  - refine (proj1 (proj1 (checkIsSupportedVersion_threshold "5.5.9" _ [] eq_refl) _)).
    reflexivity.
  - refine (proj2 (checkIsSupportedVersion_threshold "5.6.0" _ [] eq_refl) _).
    vm_compute. discriminate.
  - refine (proj2 (checkIsSupportedVersion_threshold "5.7.0" _ [] eq_refl) _).
    vm_compute. discriminate.
Defined.

(** C6: a version string that does not parse gets the error that carries the
    string and the parser's message, and nothing else happens: the collection
    that comes back is the one [AddError] gives, with no comparison made. *)
Theorem checkIsSupportedVersion_unparsable version err diags :
  semver.NewVersion version = inl err ->
  let unreadable :=
    diag.ErrorDiagnostic
      ("Unable read unleash version from string " +:+ version) err in
  checkIsSupportedVersion version diags = diag.Append diags unreadable
  /\ unreadable ∈ checkIsSupportedVersion version diags
  /\ diag.is_error unreadable = true
  /\ diag.HasError (checkIsSupportedVersion version diags) = true
  /\ (unreadable ∉ diags ->
      checkIsSupportedVersion version diags = (diags ++ [unreadable])%list).
Proof.
  intros Hv unreadable. unfold checkIsSupportedVersion. rewrite Hv.
  fold unreadable. unfold diag.AddError. repeat split.
  - apply Append_elem_of.
  - by rewrite HasError_Append, orb_true_r.
  - apply Append_fresh.
Qed.

Lemma checkIsSupportedVersion_unparsable_witness :
  checkIsSupportedVersion "latest" []
  = [diag.ErrorDiagnostic "Unable read unleash version from string latest"
       "Invalid Semantic Version"].
Proof.
  exact (proj1 (checkIsSupportedVersion_unparsable "latest" _ [] eq_refl)).
Defined.

Lemma checkIsSupportedVersion_supported version v diags :
  semver.NewVersion version = inr v ->
  0 <= semver.Compare v minimumVersion ->
  checkIsSupportedVersion version diags = diags.
Proof.
  intros Hv Hge. unfold checkIsSupportedVersion. rewrite Hv.
  destruct (Z.ltb_spec (semver.Compare v minimumVersion) 0); [lia | done].
Qed.

Section VersionGateFacts.

Variable failure : option http.Response -> option string -> string * string.
Variable remote : unleash.APIClient -> unleash.UiConfigCall.

Lemma ValidateApiResponse_fails call diags :
  callFails call ->
  ValidateApiResponse failure (unleash.Response call) 200 diags (unleash.Err call)
  = (false, diag.AddError diags
              (failure (unleash.Response call) (unleash.Err call)).1
              (failure (unleash.Response call) (unleash.Err call)).2).
Proof.
  unfold ValidateApiResponse, callFails.
  destruct (unleash.Err call) as [e|], (unleash.Response call) as [r|];
    destruct (failure _ _) as [summary detail]; simpl; try done.
  intros [[? [=]] | Hr]. specialize (Hr r eq_refl).
  by destruct (Z.eqb_spec (http.StatusCode r) 200).
Qed.

Lemma ValidateApiResponse_valid r diags :
  http.StatusCode r = 200 ->
  ValidateApiResponse failure (Some r) 200 diags None = (true, diags).
Proof. intros Hr. unfold ValidateApiResponse. by rewrite Hr. Qed.

Lemma unleashClient_None environ config diagnostics diagnostics' :
  unleashClient environ config diagnostics = (None, diagnostics') ->
  diag.HasError diagnostics' = true.
Proof.
  rewrite unleashClient_unfold. cbv zeta.
  destruct (diag.HasError _) eqn:He; [| done]. by intros [= <-].
Qed.

Lemma versionCheck_fails c diags :
  callFails (remote c) ->
  versionCheck failure remote (Some c) diags
  = Returns (diag.AddError diags
               (failure (unleash.Response (remote c)) (unleash.Err (remote c))).1
               (failure (unleash.Response (remote c)) (unleash.Err (remote c))).2).
Proof.
  intros Hf. unfold versionCheck. by rewrite ValidateApiResponse_fails.
Qed.




End VersionGateFacts.


Example Configure_unavailableServer :
  Configure sampleFailure (New "dev" ()) ∅ unavailableServer
    sampleRequest emptyResponse
  = Returns
      {| provider.Diagnostics :=
           [diag.ErrorDiagnostic "Unable to read the Unleash configuration"
              "503 Service Unavailable"];
         provider.DataSourceData := None;
         provider.ResourceData := None |}.
Proof. reflexivity. Qed.


(** A response without the latest versions makes [versionCheck] panic on the
    nil pointer before any warning is added. *)
Example versionCheck_nil_latest :
  versionCheck sampleFailure
    (fun _ => {| unleash.Body :=
                   Some {| unleash.Version := "5.7.0";
                           unleash.VersionInfo :=
                             {| unleash.IsLatest := false;
                                unleash.Latest := {| unleash.Oss := None;
                                                     unleash.Enterprise := None |} |} |};
                 unleash.Response :=
                   Some {| http.StatusCode := 200; http.Status := "200 OK" |};
                 unleash.Err := None |})
    (Some sampleClient) []
  = Panics.
Proof. reflexivity. Qed.

(** * Further properties of the provider *)

(** ** The client factory *)

Lemma TrimSuffix_slash_empty s :
  strings.TrimSuffix s "/" = "" <-> s = "" \/ s = "/".
Proof.
  destruct (strings.HasSuffix s "/") eqn:Hs.
  - apply HasSuffix_true in Hs as [t ->]. rewrite TrimSuffix_append. split.
    + intros ->. by right.
    + intros [H | H]; [by destruct t | by apply (append_inj_l t "" "/")].
  - rewrite TrimSuffix_other by done. split; [by left |].
    intros [-> | ->]; [done | discriminate Hs].
Qed.

Lemma mustHave_nonempty name value diagnostics :
  value <> "" -> mustHave name value diagnostics = diagnostics.
Proof.
  intros Hv. unfold mustHave.
  destruct (String.eqb_spec value ""); [done | done].
Qed.

Lemma mustHave_HasError name value diagnostics :
  diag.HasError (mustHave name value diagnostics)
  = diag.HasError diagnostics || String.eqb value "".
Proof.
  unfold mustHave. destruct (String.eqb value "").
  - unfold diag.AddError. by rewrite HasError_Append.
  - by rewrite orb_false_r.
Qed.

Lemma unleashClient_valid environ config diagnostics client diagnostics' :
  unleashClient environ config diagnostics = (Some client, diagnostics') ->
  diag.HasError diagnostics = false
  /\ strings.TrimSuffix (configValue environ (BaseUrl config) "UNLEASH_URL") "/"
     <> ""
  /\ configValue environ (Authorization config) "AUTH_TOKEN" <> "".
Proof.
  rewrite unleashClient_unfold. cbv zeta.
  destruct (diag.HasError _) eqn:He; [done |]. intros _.
  rewrite !mustHave_HasError, !orb_false_iff in He.
  destruct He as [[He Hb] Ha]. split; [done |].
  split; intros Heq; rewrite Heq in *; discriminate.
Qed.

(** X1: [unleashClient] returns a client exactly when the collection it is
    given has no error, the base URL without its trailing slash is not empty
    and the authorization is not empty. *)
Theorem unleashClient_returns_client_iff environ config diagnostics :
  (exists client diagnostics',
     unleashClient environ config diagnostics = (Some client, diagnostics'))
  <-> diag.HasError diagnostics = false
      /\ strings.TrimSuffix (configValue environ (BaseUrl config) "UNLEASH_URL") "/"
         <> ""
      /\ configValue environ (Authorization config) "AUTH_TOKEN" <> "".
Proof.
  rewrite unleashClient_unfold. cbv zeta.
  rewrite !mustHave_HasError.
  set (base_url := strings.TrimSuffix _ "/").
  set (authorization := configValue environ (Authorization config) "AUTH_TOKEN").
  destruct (diag.HasError diagnostics) eqn:He; simpl.
  { split; [by intros (? & ? & ?) | by intros [? _]]. }
  destruct (String.eqb_spec base_url "") as [Hb | Hb]; simpl.
  { split; [by intros (? & ? & ?) | by intros (_ & ? & _)]. }
  destruct (String.eqb_spec authorization "") as [Ha | Ha]; simpl.
  { split; [by intros (? & ? & ?) | by intros (_ & _ & ?)]. }
  split; [done | intros _; eauto].
Qed.

(** X2: the client that [unleashClient] returns targets the trimmed base
    URL, which is not empty, carries the resolved authorization, unchanged
    and not empty, as its only default header, and traces exactly when
    [TF_LOG] is [debug] or [trace] in any letter case; the diagnostics come
    back as they were given, without error. *)
Theorem unleashClient_client_fields environ config diagnostics client diagnostics' :
  unleashClient environ config diagnostics = (Some client, diagnostics') ->
  diagnostics' = diagnostics
  /\ diag.HasError diagnostics = false
  /\ unleash.URL client
     = strings.TrimSuffix (configValue environ (BaseUrl config) "UNLEASH_URL") "/"
  /\ unleash.URL client <> ""
  /\ unleash.DefaultHeader client
     = [("Authorization", configValue environ (Authorization config) "AUTH_TOKEN")]
  /\ configValue environ (Authorization config) "AUTH_TOKEN" <> ""
  /\ unleash.Description client = "Unleash server"
  /\ (unleash.DebugTransport client = true <->
      strings.ToLower (os.Getenv environ "TF_LOG") = "debug"
      \/ strings.ToLower (os.Getenv environ "TF_LOG") = "trace").
Proof.
  intros H.
  pose proof (unleashClient_valid _ _ _ _ _ H) as (He & Hb & Ha).
  rewrite unleashClient_unfold in H. cbv zeta in H.
  rewrite !mustHave_nonempty, He in H by done.
  injection H as <- <-. simpl.
  repeat split; try done.
  - rewrite orb_true_iff, !String.eqb_eq. done.
  - rewrite orb_true_iff, !String.eqb_eq. done.
Qed.

Lemma unleashClient_client_fields_witness :
  unleash.URL sampleClient = "https://u.example/api"
  /\ unleash.DefaultHeader sampleClient = [("Authorization", "token-x")].
Proof.
  pose proof (unleashClient_client_fields
    {[ "UNLEASH_URL" := "https://u.example/api/"; "AUTH_TOKEN" := "token-x" ]}
    {| BaseUrl := StringNull; Authorization := StringNull |} []
    sampleClient [] eq_refl) as H.
  split; [exact (proj1 (proj2 (proj2 H))) |].
  exact (proj1 (proj2 (proj2 (proj2 (proj2 H))))).
Defined.

(** X3: the error for [base_url] is reported exactly for a base URL that
    resolves to the empty string or to a lone slash: the slash is trimmed
    before the check. *)
Theorem unleashClient_base_url_error_iff environ config diagnostics :
  missingValue "base_url" ∉ diagnostics ->
  missingValue "base_url" ∈ (unleashClient environ config diagnostics).2
  <-> configValue environ (BaseUrl config) "UNLEASH_URL" = ""
      \/ configValue environ (BaseUrl config) "UNLEASH_URL" = "/".
Proof.
  intros Hfresh. rewrite <- TrimSuffix_slash_empty.
  assert (Hsnd : (unleashClient environ config diagnostics).2
    = mustHave "authorization"
        (configValue environ (Authorization config) "AUTH_TOKEN")
        (mustHave "base_url"
           (strings.TrimSuffix (configValue environ (BaseUrl config) "UNLEASH_URL") "/")
           diagnostics)).
  { rewrite unleashClient_unfold. cbv zeta. by destruct (diag.HasError _). }
  rewrite Hsnd. clear Hsnd.
  set (base_url := strings.TrimSuffix _ "/").
  set (authorization := configValue environ (Authorization config) "AUTH_TOKEN").
  split.
  - intros Hin. destruct (String.eqb_spec base_url "") as [Hb | Hb]; [done |].
    rewrite (mustHave_nonempty "base_url") in Hin by done.
    unfold mustHave in Hin. destruct (String.eqb authorization ""); [| done].
    unfold diag.AddError, diag.Append in Hin.
    destruct (diag.Contains diagnostics _); [done |].
    apply elem_of_app in Hin as [Hin | Hin]; [done |].
    apply list_elem_of_singleton in Hin. discriminate Hin.
  - intros ->. eapply elem_of_prefix; [| apply mustHave_prefix].
    rewrite mustHave_empty. apply Append_elem_of.
Qed.

Lemma unleashClient_base_url_error_iff_witness :
  missingValue "base_url"
  ∈ (unleashClient ∅ {| BaseUrl := StringKnown "/";
                        Authorization := StringKnown "token-x" |} []).2.
Proof.
  apply (unleashClient_base_url_error_iff ∅
           {| BaseUrl := StringKnown "/"; Authorization := StringKnown "token-x" |} []).
  - apply not_elem_of_nil.
  - by right.
Defined.

(** X4: called on a collection that already has an error, [unleashClient]
    returns no client, also for a complete configuration, and for a complete
    configuration it adds nothing. *)
Theorem unleashClient_earlier_error environ config diagnostics :
  diag.HasError diagnostics = true ->
  (unleashClient environ config diagnostics).1 = None
  /\ diagnostics `prefix_of` (unleashClient environ config diagnostics).2
  /\ (strings.TrimSuffix (configValue environ (BaseUrl config) "UNLEASH_URL") "/"
      <> "" ->
      configValue environ (Authorization config) "AUTH_TOKEN" <> "" ->
      unleashClient environ config diagnostics = (None, diagnostics)).
Proof.
  intros He. rewrite unleashClient_unfold. cbv zeta.
  rewrite !mustHave_HasError, He. simpl. repeat split.
  - etrans; apply mustHave_prefix.
  - intros Hb Ha. by rewrite !mustHave_nonempty.
Qed.

Lemma unleashClient_earlier_error_witness :
  unleashClient ∅ (provider.Config sampleRequest)
    [diag.ErrorDiagnostic "Invalid configuration" "base_url is not a string"]
  = (None, [diag.ErrorDiagnostic "Invalid configuration" "base_url is not a string"]).
Proof.
  refine (proj2 (proj2 (unleashClient_earlier_error ∅ (provider.Config sampleRequest)
    [diag.ErrorDiagnostic "Invalid configuration" "base_url is not a string"]
    eq_refl)) _ _); discriminate.
Defined.

(** X5: [unleashClient] reads the environment only through [UNLEASH_URL],
    [AUTH_TOKEN] and [TF_LOG]: two environments that agree on these three give
    the same client and the same diagnostics. *)
Theorem unleashClient_environment environ environ' config diagnostics :
  environ !! "UNLEASH_URL" = environ' !! "UNLEASH_URL" ->
  environ !! "AUTH_TOKEN" = environ' !! "AUTH_TOKEN" ->
  environ !! "TF_LOG" = environ' !! "TF_LOG" ->
  unleashClient environ config diagnostics
  = unleashClient environ' config diagnostics.
Proof.
  intros Hu Ha Hl. rewrite !unleashClient_unfold.
  unfold configValue, os.Getenv. by rewrite Hu, Ha, Hl.
Qed.

Lemma unleashClient_environment_witness :
  unleashClient {[ "UNLEASH_URL" := "https://u.example"; "HOME" := "/root" ]}
    {| BaseUrl := StringNull; Authorization := StringKnown "token-x" |} []
  = unleashClient {[ "UNLEASH_URL" := "https://u.example" ]}
      {| BaseUrl := StringNull; Authorization := StringKnown "token-x" |} [].
Proof.
  apply unleashClient_environment; reflexivity.
Defined.

(** X6: only the resolved values matter: a configuration gives the same
    client and diagnostics as the configuration that spells out what its
    attributes resolve to, so a value taken from the environment and the same
    value written in the configuration cannot be told apart. *)
Theorem unleashClient_resolved environ config diagnostics :
  unleashClient environ config diagnostics
  = unleashClient environ (resolvedConfiguration environ config) diagnostics.
Proof. by rewrite !unleashClient_unfold. Qed.

(** X7: running [unleashClient] again on the diagnostics it produced adds
    nothing: a missing field is reported once. *)
Theorem unleashClient_reports_once environ config diagnostics :
  (unleashClient environ config (unleashClient environ config diagnostics).2).2
  = (unleashClient environ config diagnostics).2.
Proof.
  assert (Hsnd : forall d, (unleashClient environ config d).2
    = mustHave "authorization"
        (configValue environ (Authorization config) "AUTH_TOKEN")
        (mustHave "base_url"
           (strings.TrimSuffix (configValue environ (BaseUrl config) "UNLEASH_URL") "/")
           d)).
  { intros d. rewrite unleashClient_unfold. cbv zeta. by destruct (diag.HasError _). }
  rewrite !Hsnd.
  set (base_url := strings.TrimSuffix _ "/").
  set (authorization := configValue environ (Authorization config) "AUTH_TOKEN").
  assert (Hstable : forall name value d d',
    mustHave name value d `prefix_of` d' -> mustHave name value d' = d').
  { intros name value d d' Hp. unfold mustHave in *.
    destruct (String.eqb value ""); [| done].
    apply Append_present. eapply elem_of_prefix; [apply Append_elem_of | exact Hp]. }
  rewrite (Hstable "base_url" base_url diagnostics) by apply mustHave_prefix.
  by apply (Hstable "authorization" authorization
              (mustHave "base_url" base_url diagnostics)).
Qed.

(** ** The version gate: which versions pass *)

Section ParserFacts.

Lemma span_forallb (p : ascii -> bool) (s : string) :
  forallb p (list_ascii_of_string (semver.span p s).1) = true.
Proof.
  induction s as [|c s IH]; simpl; [done |].
  destruct (p c) eqn:Hc; [| done].
  destruct (semver.span p s) as [taken rest]. simpl in *. by rewrite Hc.
Qed.

Lemma dot_digits_forallb (s : string) :
  forallb semver.is_digit (list_ascii_of_string (semver.dot_digits s).1) = true.
Proof.
  unfold semver.dot_digits. destruct s as [|c s]; [done |].
  destruct c as [[] [] [] [] [] [] [] []]; try done.
  pose proof (span_forallb semver.is_digit s) as H.
  destruct (semver.span semver.is_digit s) as [digits rest]. simpl in H.
  by destruct (String.eqb digits "").
Qed.

Lemma digit_value_nonneg (c : ascii) :
  semver.is_digit c = true -> 0 <= semver.digit_value c.
Proof.
  unfold semver.is_digit, semver.between, semver.digit_value.
  rewrite andb_true_iff, !Nat.leb_le. lia.
Qed.

Lemma fold_digits_nonneg (l : list ascii) (acc : Z) :
  0 <= acc -> forallb semver.is_digit l = true ->
  0 <= fold_left (fun a c => 10 * a + semver.digit_value c) l acc.
Proof.
  revert acc. induction l as [|c l IH]; intros acc Hacc Hl; simpl in *; [done |].
  apply andb_true_iff in Hl as [Hc Hl]. apply IH; [| done].
  apply digit_value_nonneg in Hc. lia.
Qed.

Lemma decimal_nonneg (s : string) :
  forallb semver.is_digit (list_ascii_of_string s) = true -> 0 <= semver.decimal s.
Proof. intros H. by apply fold_digits_nonneg. Qed.

Lemma ParseInt_nonneg (m : string) (n : Z) :
  forallb semver.is_digit (list_ascii_of_string m) = true ->
  semver.ParseInt m = inr n -> 0 <= n.
Proof.
  intros Hm. unfold semver.ParseInt.
  destruct (semver.decimal m <=? 9223372036854775807); [| done].
  intros [= <-]. by apply decimal_nonneg.
Qed.

Lemma segment_nonneg (m : string) (n : Z) :
  forallb semver.is_digit (list_ascii_of_string m) = true ->
  semver.segment m = inr n -> 0 <= n.
Proof.
  intros Hm. unfold semver.segment. destruct (String.eqb m ""); [by intros [= <-] |].
  destruct (semver.ParseInt m) as [err | k] eqn:Hk; [done |].
  intros [= <-]. by apply (ParseInt_nonneg m).
Qed.

Lemma marked_pieces (mark : ascii) (s : string) :
  (semver.marked mark s).1 = ""
  \/ semver.dotted_idents (semver.marked mark s).1 = true.
Proof.
  unfold semver.marked. destruct s as [|c s]; [by left |].
  destruct (Ascii.eqb c mark); [| by left].
  destruct (semver.span _ s) as [t rest].
  destruct (semver.dotted_idents t) eqn:Ht; [by right | by left].
Qed.

(** What [NewVersion] gives back: the three numbers are not negative, the
    string is kept, and the pieces of a pre-release are not empty. *)
Lemma NewVersion_fields (version : string) (v : semver.Version) :
  semver.NewVersion version = inr v ->
  0 <= semver.major v /\ 0 <= semver.minor v /\ 0 <= semver.patch v
  /\ semver.original v = version
  /\ (semver.pre v = "" \/ semver.dotted_idents (semver.pre v) = true).
Proof.
  unfold semver.NewVersion, semver.FindStringSubmatch.
  set (s0 := match version with String "v" r => r | _ => version end).
  pose proof (span_forallb semver.is_digit s0) as H1.
  destruct (semver.span semver.is_digit s0) as [m1 s1]. simpl in H1.
  destruct (String.eqb m1 ""); [done |].
  pose proof (dot_digits_forallb s1) as H2.
  destruct (semver.dot_digits s1) as [m2 s2]. simpl in H2.
  pose proof (dot_digits_forallb s2) as H3.
  destruct (semver.dot_digits s2) as [m3 s3]. simpl in H3.
  pose proof (marked_pieces "-" s3) as H5.
  destruct (semver.marked "-" s3) as [m5 s4]. simpl in H5.
  destruct (semver.marked "+" s4) as [m8 s5].
  destruct (String.eqb s5 ""); [| done].
  destruct (semver.ParseInt m1) as [e1 | ma] eqn:Hma; [done |].
  destruct (semver.segment m2) as [e2 | mi] eqn:Hmi; [done |].
  destruct (semver.segment m3) as [e3 | pa] eqn:Hpa; [done |].
  intros [= <-]. simpl.
  split; [by apply (ParseInt_nonneg m1) |].
  split; [by apply (segment_nonneg m2) |].
  split; [by apply (segment_nonneg m3) |]. done.
Qed.

Lemma Split_cons (s : string) (sep : ascii) :
  exists piece pieces, strings.Split s sep = piece :: pieces.
Proof.
  induction s as [|c s (piece & pieces & IH)]; simpl; [by eauto |].
  destruct (Ascii.eqb c sep); [by eauto |]. rewrite IH. by eauto.
Qed.

Lemma comparePrePart_empty (s : string) : 0 <= semver.comparePrePart s "".
Proof.
  unfold semver.comparePrePart.
  destruct (String.eqb s "") eqn:Hs; simpl; [lia |]. simpl. lia.
Qed.

(** Beyond the single piece of the minimum's pre-release a longer
    pre-release can only be larger. *)
Lemma comparePreParts_beyond (sparts : list string) (n i : nat) :
  (1 <= i)%nat -> 0 <= semver.comparePreParts sparts ["0"] n i.
Proof.
  revert i. induction n as [|n IH]; intros i Hi; [simpl; lia |].
  cbn [semver.comparePreParts].
  assert (nth i ["0"] "" = "") as -> by (destruct i as [|[|i]]; [lia | done | done]).
  pose proof (comparePrePart_empty (nth i sparts "")) as Hd.
  destruct (Z.eqb_spec (semver.comparePrePart (nth i sparts "") "") 0);
    cbn [negb].
  - apply IH. lia.
  - lia.
Qed.

Lemma ParseUint_nonneg (s : string) (n : Z) :
  semver.ParseUint s = Some n -> 0 <= n.
Proof.
  unfold semver.ParseUint. destruct (String.eqb s ""); [done |].
  destruct (forallb _ _) eqn:Hd; [| done].
  destruct (semver.decimal s <=? 18446744073709551615); [| done].
  intros [= <-]. by apply decimal_nonneg.
Qed.

(** The first piece of a pre-release against the [0] of the minimum. *)
Lemma comparePrePart_zero (p0 : string) :
  p0 <> "" ->
  semver.comparePrePart p0 "0" < 0 <->
  p0 <> "0" /\ semver.ParseUint p0 = Some 0.
Proof.
  intros Hne. unfold semver.comparePrePart.
  destruct (String.eqb_spec p0 "0") as [-> | H0]; [simpl; split; [lia | by intros [? _]] |].
  destruct (String.eqb_spec p0 "") as [? | _]; [done |].
  change (String.eqb "0" "") with false. cbv iota.
  change (semver.ParseUint "0") with (Some 0).
  destruct (semver.ParseUint p0) as [n |] eqn:Hn.
  - apply ParseUint_nonneg in Hn.
    destruct (Z.ltb_spec 0 n).
    + split; [lia | intros [_ [= ->]]; lia].
    + split; [intros _; split; [done | f_equal; lia] | lia].
  - split; [lia | by intros [_ ?]].
Qed.

Lemma comparePrerelease_zero (ps p0 : string) (pieces : list string) :
  strings.Split ps "." = p0 :: pieces ->
  p0 <> "" ->
  semver.comparePrerelease ps "0" < 0 <->
  p0 <> "0" /\ semver.ParseUint p0 = Some 0.
Proof.
  intros Hsplit Hne. unfold semver.comparePrerelease. rewrite Hsplit.
  change (strings.Split "0" ".") with ["0"]. 
  replace (if (length (p0 :: pieces) <? length ["0"])%nat
           then length ["0"] else length (p0 :: pieces))
    with (S (length pieces)) by (simpl; by destruct (length pieces)).
  cbn [semver.comparePreParts nth].
  rewrite <- (comparePrePart_zero p0 Hne).
  destruct (Z.eqb_spec (semver.comparePrePart p0 "0") 0) as [Hz | Hz];
    cbn [negb]; [| done].
  pose proof (comparePreParts_beyond (p0 :: pieces) (length pieces) 1). lia.
Qed.

End ParserFacts.

Lemma checkIsSupportedVersion_below version v diags :
  semver.NewVersion version = inr v ->
  semver.Compare v minimumVersion < 0 ->
  checkIsSupportedVersion version diags
  = diag.Append diags (unsupportedVersion version).
Proof.
  intros Hv Hlt. unfold checkIsSupportedVersion. rewrite Hv.
  destruct (Z.ltb_spec (semver.Compare v minimumVersion) 0); [done | lia].
Qed.

(** X8: a release (a version without pre-release part) passes the gate
    exactly when its major and minor numbers are at least 5.6; otherwise the
    error for an unsupported version is added. *)
Theorem checkIsSupportedVersion_release version v diags :
  semver.NewVersion version = inr v ->
  semver.pre v = "" ->
  ((5 < semver.major v \/ (semver.major v = 5 /\ 6 <= semver.minor v))
   /\ checkIsSupportedVersion version diags = diags)
  \/ ((semver.major v < 5 \/ (semver.major v = 5 /\ semver.minor v < 6))
      /\ checkIsSupportedVersion version diags
         = diag.Append diags (unsupportedVersion version)
      /\ diag.HasError (checkIsSupportedVersion version diags) = true).
Proof.
  intros Hv Hpre.
  pose proof (NewVersion_fields version v Hv) as (_ & _ & Hpatch & _).
  pose proof (Compare_release_minimum v Hpre) as Hcmp.
  destruct (Z.ltb_spec (semver.Compare v minimumVersion) 0) as [Hlt | Hge].
  - right. rewrite (checkIsSupportedVersion_below version v) by done.
    split; [apply Hcmp in Hlt; lia |]. split; [done |].
    by rewrite HasError_Append, orb_true_r.
  - left. split; [| by apply (checkIsSupportedVersion_supported version v)].
    assert (~ (semver.major v < 5
               \/ (semver.major v = 5
                   /\ (semver.minor v < 6
                       \/ (semver.minor v = 6 /\ semver.patch v < 0))))) as Hn
      by (rewrite <- Hcmp; lia).
    lia.
Qed.

Lemma checkIsSupportedVersion_release_witness :
  checkIsSupportedVersion "5.10.2" [] = []
  /\ checkIsSupportedVersion "4.23.0" []
     = [unsupportedVersion "4.23.0"].
Proof.
  split.
  - destruct (checkIsSupportedVersion_release "5.10.2" _ [] eq_refl eq_refl)
      as [[_ H] | [H _]]; [exact H |].
    exfalso. vm_compute in H. destruct H as [H | [_ H]]; discriminate H.
  - destruct (checkIsSupportedVersion_release "4.23.0" _ [] eq_refl eq_refl)
      as [[H _] | [_ [H _]]]; [| exact H].
    exfalso. vm_compute in H. destruct H as [H | [H _]]; discriminate H.
Defined.

(** X9: a pre-release of 5.6.0 passes the gate, whatever its identifiers,
    unless its first identifier is a zero written otherwise than [0]: the
    minimum is 5.6.0-0, the lowest pre-release of 5.6.0. *)
Theorem checkIsSupportedVersion_prerelease version v diags p0 pieces :
  semver.NewVersion version = inr v ->
  semver.major v = 5 -> semver.minor v = 6 -> semver.patch v = 0 ->
  semver.pre v <> "" ->
  strings.Split (semver.pre v) "." = p0 :: pieces ->
  (~ (p0 <> "0" /\ semver.ParseUint p0 = Some 0)
   /\ checkIsSupportedVersion version diags = diags)
  \/ ((p0 <> "0" /\ semver.ParseUint p0 = Some 0)
      /\ checkIsSupportedVersion version diags
         = diag.Append diags (unsupportedVersion version)).
Proof.
  intros Hv Hma Hmi Hpa Hpre Hsplit.
  pose proof (NewVersion_fields version v Hv) as (_ & _ & _ & _ & Hpieces).
  destruct Hpieces as [? | Hpieces]; [done |].
  assert (Hp0 : p0 <> "").
  { unfold semver.dotted_idents in Hpieces. rewrite Hsplit in Hpieces.
    simpl in Hpieces. apply andb_true_iff in Hpieces as [Hp0 _].
    intros ->. discriminate Hp0. }
  assert (Hcmp : semver.Compare v minimumVersion
                 = semver.comparePrerelease (semver.pre v) "0").
  { unfold semver.Compare. rewrite Hma, Hmi, Hpa. simpl.
    by destruct (String.eqb_spec (semver.pre v) ""). }
  pose proof (comparePrerelease_zero (semver.pre v) p0 pieces Hsplit Hp0) as Hz.
  destruct (Z.ltb_spec (semver.Compare v minimumVersion) 0) as [Hlt | Hge].
  - right. split; [apply Hz; lia |].
    by apply (checkIsSupportedVersion_below version v).
  - left. split; [rewrite <- Hz; lia |].
    by apply (checkIsSupportedVersion_supported version v).
Qed.

Lemma checkIsSupportedVersion_prerelease_witness :
  checkIsSupportedVersion "5.6.0-beta.1" [] = [].
Proof.
  destruct (checkIsSupportedVersion_prerelease "5.6.0-beta.1" _ [] "beta" ["1"]
              eq_refl eq_refl eq_refl eq_refl ltac:(discriminate) eq_refl)
    as [[_ H] | [[_ H] _]]; [exact H | discriminate H].
Defined.

(** X10: the gate is sound: when the collection has no error after
    [checkIsSupportedVersion], the version string parsed, the version is the
    minimum or above, and nothing was added. *)
Theorem checkIsSupportedVersion_sound version diags :
  diag.HasError (checkIsSupportedVersion version diags) = false ->
  exists v,
    semver.NewVersion version = inr v
    /\ 0 <= semver.Compare v minimumVersion
    /\ checkIsSupportedVersion version diags = diags.
Proof.
  unfold checkIsSupportedVersion.
  destruct (semver.NewVersion version) as [err | v].
  { unfold diag.AddError. rewrite HasError_Append. simpl.
    by rewrite orb_true_r. }
  destruct (Z.ltb_spec (semver.Compare v minimumVersion) 0) as [Hlt | Hge].
  { unfold diag.AddError. rewrite HasError_Append. simpl.
    by rewrite orb_true_r. }
  intros _. by exists v.
Qed.

Lemma checkIsSupportedVersion_sound_witness :
  exists v,
    semver.NewVersion "v5.6" = inr v
    /\ 0 <= semver.Compare v minimumVersion
    /\ checkIsSupportedVersion "v5.6" [] = [].
Proof. apply (checkIsSupportedVersion_sound "v5.6" []). reflexivity. Defined.

Lemma Append_length (diags : diag.Diagnostics) (d : diag.Diagnostic) :
  (length (diag.Append diags d) <= S (length diags))%nat.
Proof.
  unfold diag.Append. destruct (diag.Contains diags d); [lia |].
  rewrite length_app. simpl. lia.
Qed.

Lemma checkIsSupportedVersion_length version diags :
  diags `prefix_of` checkIsSupportedVersion version diags
  /\ (length (checkIsSupportedVersion version diags) <= S (length diags))%nat.
Proof.
  unfold checkIsSupportedVersion, diag.AddError.
  destruct (semver.NewVersion version) as [err | v];
    [split; [apply Append_prefix | apply Append_length] |].
  destruct (semver.Compare v minimumVersion <? 0);
    [split; [apply Append_prefix | apply Append_length] |].
  split; [done | lia].
Qed.

(** X11: [checkIsSupportedVersion] keeps what the collection holds and adds
    at most one diagnostic, which is an error: the one for an unsupported
    version or the one for an unreadable version, never a warning. *)
Theorem checkIsSupportedVersion_adds_one_error version diags :
  diags `prefix_of` checkIsSupportedVersion version diags
  /\ (length (checkIsSupportedVersion version diags) <= S (length diags))%nat
  /\ forall d,
       d ∈ checkIsSupportedVersion version diags -> d ∉ diags ->
       diag.is_error d = true
       /\ (d = unsupportedVersion version
           \/ exists err,
                semver.NewVersion version = inl err
                /\ d = diag.ErrorDiagnostic
                         ("Unable read unleash version from string " +:+ version)
                         err).
Proof.
  assert (Happ : forall d0, diag.is_error d0 = true ->
    diags `prefix_of` diag.Append diags d0
    /\ (length (diag.Append diags d0) <= S (length diags))%nat
    /\ forall d, d ∈ diag.Append diags d0 -> d ∉ diags -> d = d0).
  { intros d0 Hd0. split; [apply Append_prefix |]. unfold diag.Append.
    destruct (diag.Contains diags d0).
    - split; [lia | done].
    - rewrite length_app. simpl. split; [lia |].
      intros d Hd Hn. apply elem_of_app in Hd as [? | Hd]; [done |].
      by apply list_elem_of_singleton in Hd. }
  unfold checkIsSupportedVersion.
  destruct (semver.NewVersion version) as [err | v].
  - destruct (Happ (diag.ErrorDiagnostic
      ("Unable read unleash version from string " +:+ version) err) eq_refl)
      as (Hp & Hl & Hd).
    unfold diag.AddError. split; [done |]. split; [done |].
    intros d Hin Hn. rewrite (Hd d Hin Hn). split; [done |]. right. by exists err.
  - destruct (semver.Compare v minimumVersion <? 0).
    + destruct (Happ (unsupportedVersion version) eq_refl) as (Hp & Hl & Hd).
      unfold diag.AddError. fold (unsupportedVersion version).
      split; [done |]. split; [done |].
      intros d Hin Hn. rewrite (Hd d Hin Hn). split; [done | by left].
    + split; [done |]. split; [lia | done].
Qed.

Lemma FindStringSubmatch_v_prefix (s : string) :
  (forall r, s <> String "v" r) ->
  semver.FindStringSubmatch (String "v" s) = semver.FindStringSubmatch s.
Proof.
  intros Hs. unfold semver.FindStringSubmatch.
  destruct s as [|c r]; [done |].
  destruct c as [[] [] [] [] [] [] [] []]; try reflexivity.
  by destruct (Hs r).
Qed.

(** X12: a leading [v] makes no difference to the gate: a version string
    that does not itself start with [v] passes with the prefix exactly when
    it passes without. *)
Theorem checkIsSupportedVersion_v_prefix (s : string) diags :
  (forall r, s <> String "v" r) ->
  diag.HasError (checkIsSupportedVersion (String "v" s) diags)
  = diag.HasError (checkIsSupportedVersion s diags).
Proof.
  intros Hs. unfold checkIsSupportedVersion, semver.NewVersion.
  rewrite (FindStringSubmatch_v_prefix s Hs).
  destruct (semver.FindStringSubmatch s) as [[[[[m1 m2] m3] m5] m8] |].
  - destruct (semver.ParseInt m1) as [e1 | ma];
      [unfold diag.AddError; by rewrite !HasError_Append |].
    destruct (semver.segment m2) as [e2 | mi];
      [unfold diag.AddError; by rewrite !HasError_Append |].
    destruct (semver.segment m3) as [e3 | pa];
      [unfold diag.AddError; by rewrite !HasError_Append |].
    change (semver.Compare {| semver.major := ma; semver.minor := mi;
                              semver.patch := pa; semver.pre := m5;
                              semver.metadata := m8;
                              semver.original := String "v" s |} minimumVersion)
      with (semver.Compare {| semver.major := ma; semver.minor := mi;
                              semver.patch := pa; semver.pre := m5;
                              semver.metadata := m8;
                              semver.original := s |} minimumVersion).
    destruct (semver.Compare _ minimumVersion <? 0); [| done].
    unfold diag.AddError. by rewrite !HasError_Append.
  - unfold diag.AddError. by rewrite !HasError_Append.
Qed.

Lemma checkIsSupportedVersion_v_prefix_witness :
  diag.HasError (checkIsSupportedVersion "v5.5.9" [])
  = diag.HasError (checkIsSupportedVersion "5.5.9" []).
Proof.
  apply (checkIsSupportedVersion_v_prefix "5.5.9" []). intros r. discriminate.
Defined.

(** ** The version check against the server, and [Configure] *)

Lemma AppendAll_prefix (extra diags : diag.Diagnostics) :
  diags `prefix_of` diag.AppendAll diags extra.
Proof.
  unfold diag.AppendAll. revert diags.
  induction extra as [|d extra IH]; intros diags; simpl; [done |].
  etrans; [apply Append_prefix | apply IH].
Qed.

Lemma callValid_or_callFails (call : unleash.UiConfigCall) :
  callValid call \/ callFails call.
Proof.
  unfold callValid, callFails.
  destruct (unleash.Err call) as [e |]; [by right; left |].
  destruct (unleash.Response call) as [r |]; [| by right; right].
  destruct (Z.eq_dec (http.StatusCode r) 200) as [Hr | Hr].
  - left. split; [done |]. by exists r.
  - right. right. by intros ? [= <-].
Qed.

Lemma callValid_not_callFails (call : unleash.UiConfigCall) :
  callValid call -> ~ callFails call.
Proof.
  intros [He (r & Hr & H200)] [[e Hs] | Hf].
  - congruence.
  - by apply (Hf r).
Qed.

Section ConfigureFacts.

Variable failure : option http.Response -> option string -> string * string.
Variable remote : unleash.APIClient -> unleash.UiConfigCall.

Lemma ValidateApiResponse_callValid call diags :
  callValid call ->
  ValidateApiResponse failure (unleash.Response call) 200 diags (unleash.Err call)
  = (true, diags).
Proof.
  intros [-> (r & -> & Hr)]. by apply ValidateApiResponse_valid.
Qed.

Lemma versionCheck_path c diags :
  versionCheckPath failure remote c diags
    (versionCheck failure remote (Some c) diags).
Proof.
  destruct (callValid_or_callFails (remote c)) as [Hv | Hf].
  - unfold versionCheck. rewrite ValidateApiResponse_callValid by done.
    cbn [negb].
    destruct (unleash.Body (remote c)) as [unleashConfig |] eqn:Hb;
      [| by apply path_no_body].
    destruct (unleash.IsLatest (unleash.VersionInfo unleashConfig)) eqn:Hl.
    + by apply (path_latest _ _ c diags unleashConfig).
    + cbn [negb].
      destruct (unleash.Oss _) as [oss |] eqn:Ho;
        [| apply (path_nil_latest _ _ c diags unleashConfig); auto].
      destruct (unleash.Enterprise _) as [enterprise |] eqn:He;
        [| apply (path_nil_latest _ _ c diags unleashConfig); auto].
      by apply (path_not_latest _ _ c diags unleashConfig oss enterprise).
  - rewrite versionCheck_fails by done. by apply path_call_fails.
Qed.

(** X13: a valid answer of a server that is the latest and supported leaves
    the diagnostics as they were, also when the answer does not name the
    latest versions: the pointers are only read for a server that is not the
    latest. *)
Theorem versionCheck_latest_supported c diags unleashConfig v :
  callValid (remote c) ->
  unleash.Body (remote c) = Some unleashConfig ->
  unleash.IsLatest (unleash.VersionInfo unleashConfig) = true ->
  semver.NewVersion (unleash.Version unleashConfig) = inr v ->
  0 <= semver.Compare v minimumVersion ->
  versionCheck failure remote (Some c) diags = Returns diags.
Proof.
  intros Hv Hb Hl Hp Hge. unfold versionCheck.
  rewrite ValidateApiResponse_callValid, Hb, Hl by done. cbn.
  by rewrite (checkIsSupportedVersion_supported _ v).
Qed.

(** X14: a server that is both below the minimum and not the latest gets the
    warning first and the error for the unsupported version after it, so the
    check ends with an error. *)
Theorem versionCheck_old_and_not_latest c diags unleashConfig oss enterprise v :
  callValid (remote c) ->
  unleash.Body (remote c) = Some unleashConfig ->
  unleash.IsLatest (unleash.VersionInfo unleashConfig) = false ->
  unleash.Oss (unleash.Latest (unleash.VersionInfo unleashConfig)) = Some oss ->
  unleash.Enterprise (unleash.Latest (unleash.VersionInfo unleashConfig))
  = Some enterprise ->
  semver.NewVersion (unleash.Version unleashConfig) = inr v ->
  semver.Compare v minimumVersion < 0 ->
  let warning := notLatestWarning (unleash.Version unleashConfig) oss enterprise in
  let error := unsupportedVersion (unleash.Version unleashConfig) in
  versionCheck failure remote (Some c) diags
  = Returns (diag.Append (diag.Append diags warning) error)
  /\ diag.HasError (diag.Append (diag.Append diags warning) error) = true
  /\ (warning ∉ diags -> error ∉ diags ->
      diag.Append (diag.Append diags warning) error
      = (diags ++ [warning; error])%list).
Proof.
  intros Hv Hb Hl Ho He Hp Hlt warning error. split; [| split].
  - unfold versionCheck.
    rewrite ValidateApiResponse_callValid, Hb, Hl, Ho, He by done. cbn.
    by rewrite (checkIsSupportedVersion_below _ v).
  - by rewrite HasError_Append, orb_true_r.
  - intros Hw Herr. rewrite (Append_fresh diags) by done.
    rewrite Append_fresh.
    + by rewrite <- app_assoc.
    + rewrite elem_of_app, list_elem_of_singleton. intros [? | ?]; done.
Qed.

(** X15: [versionCheck] panics exactly when it is given no client, or when
    the call is valid but brought no body, or a body that says the server
    is not the latest without naming both latest versions. *)
Theorem versionCheck_panics_iff client diags :
  versionCheck failure remote client diags = Panics
  <-> client = None
      \/ exists c,
           client = Some c /\ callValid (remote c)
           /\ (unleash.Body (remote c) = None
               \/ exists unleashConfig,
                    unleash.Body (remote c) = Some unleashConfig
                    /\ unleash.IsLatest (unleash.VersionInfo unleashConfig) = false
                    /\ (unleash.Oss (unleash.Latest (unleash.VersionInfo unleashConfig))
                        = None
                        \/ unleash.Enterprise
                             (unleash.Latest (unleash.VersionInfo unleashConfig))
                           = None)).
Proof.
  destruct client as [c |]; [| split; [by left | done]].
  split.
  - intros Hp. right. exists c. split; [done |].
    destruct (versionCheck_path c diags) as
      [Hf | Hv Hb | cfg Hv Hb Hl | cfg o e Hv Hb Hl Ho He | cfg Hv Hb Hl Hn];
      try discriminate Hp.
    + by eauto.
    + split; [done |]. right. by exists cfg.
  - intros [[=] | (c' & [= <-] & Hv & Hcase)]. unfold versionCheck.
    rewrite ValidateApiResponse_callValid by done. cbn [negb].
    destruct Hcase as [-> | (cfg & -> & Hl & Hn)]; [done |].
    rewrite Hl. cbn [negb].
    destruct Hn as [-> | Hn]; [done |]. rewrite Hn.
    by destruct (unleash.Oss _).
Qed.

(** X16: when [versionCheck] returns, it has kept what the collection held
    and added at most two diagnostics: the warning and one error. *)
Theorem versionCheck_extends c diags diags' :
  versionCheck failure remote (Some c) diags = Returns diags' ->
  diags `prefix_of` diags'
  /\ (length diags' <= length diags + 2)%nat.
Proof.
  intros Hr.
  assert (Hone : forall d0 l, l `prefix_of` diag.Append l d0
                 /\ (length (diag.Append l d0) <= S (length l))%nat)
    by (intros d0 l; split; [apply Append_prefix | apply Append_length]).
  destruct (versionCheck_path c diags) as
    [Hf | Hv Hb | cfg Hv Hb Hl | cfg o e Hv Hb Hl Ho He | cfg Hv Hb Hl Hn];
    try discriminate Hr; injection Hr as <-.
  - unfold diag.AddError. destruct (Hone (diag.ErrorDiagnostic
      (failure (unleash.Response (remote c)) (unleash.Err (remote c))).1
      (failure (unleash.Response (remote c)) (unleash.Err (remote c))).2) diags).
    split; [done | lia].
  - destruct (checkIsSupportedVersion_length (unleash.Version cfg) diags)
      as (Hp & Hlen). split; [done | lia].
  - destruct (Hone (notLatestWarning (unleash.Version cfg) o e) diags) as [Hp1 Hl1].
    destruct (checkIsSupportedVersion_length (unleash.Version cfg)
      (diag.Append diags (notLatestWarning (unleash.Version cfg) o e)))
      as (Hp & Hlen).
    split; [by etrans | lia].
Qed.

Lemma unleashClient_keeps_diagnostics environ config diagnostics client diagnostics' :
  unleashClient environ config diagnostics = (Some client, diagnostics') ->
  diagnostics' = diagnostics /\ diag.HasError diagnostics = false.
Proof.
  intros H. pose proof (unleashClient_valid _ _ _ _ _ H) as (He & Hb & Ha).
  rewrite unleashClient_unfold in H. cbv zeta in H.
  rewrite !mustHave_nonempty, He in H by done. by injection H as <- <-.
Qed.

Lemma unleashClient_prefix environ config diagnostics :
  diagnostics `prefix_of` (unleashClient environ config diagnostics).2.
Proof.
  rewrite unleashClient_unfold. cbv zeta.
  destruct (diag.HasError _); cbn [snd]; (etrans; apply mustHave_prefix).
Qed.

(** [Configure], step by step. *)
Lemma Configure_steps p environ req resp :
  Configure failure p environ remote req resp =
  let diags0 :=
    diag.AppendAll (provider.Diagnostics resp) (provider.ConfigDiagnostics req) in
  if diag.HasError diags0 then Returns (setDiagnostics resp diags0)
  else
    match unleashClient environ (provider.Config req) diags0 with
    | (None, diags1) => Returns (setDiagnostics resp diags1)
    | (Some c, _) =>
        match versionCheck failure remote (Some c) diags0 with
        | Panics => Panics
        | Returns diags2 =>
            if diag.HasError diags2 then Returns (setDiagnostics resp diags2)
            else Returns {| provider.Diagnostics := diags2;
                            provider.DataSourceData := Some c;
                            provider.ResourceData := Some c |}
        end
    end.
Proof.
  unfold Configure, setDiagnostics. cbv zeta.
  cbn [provider.Diagnostics provider.DataSourceData provider.ResourceData].
  destruct (diag.HasError (diag.AppendAll _ _)) eqn:He0; [done |].
  destruct (unleashClient _ _ _) as [[c |] diags1] eqn:Hc.
  - apply unleashClient_keeps_diagnostics in Hc as [-> _].
    cbn [provider.Diagnostics provider.DataSourceData provider.ResourceData].
    rewrite He0.
    destruct (versionCheck failure remote (Some c) _) as [diags2 |]; [| done].
    cbn [mbind outcome_bind provider.Diagnostics].
    by destruct (diag.HasError diags2).
  - apply unleashClient_None in Hc.
    cbn [provider.Diagnostics provider.DataSourceData provider.ResourceData].
    by rewrite Hc.
Qed.

Lemma checkIsSupportedVersion_passes version diags :
  diag.HasError (checkIsSupportedVersion version diags) = false ->
  exists v, semver.NewVersion version = inr v
            /\ 0 <= semver.Compare v minimumVersion.
Proof.
  unfold checkIsSupportedVersion, diag.AddError.
  destruct (semver.NewVersion version) as [err | v];
    [by rewrite HasError_Append, orb_true_r |].
  destruct (Z.ltb_spec (semver.Compare v minimumVersion) 0);
    [by rewrite HasError_Append, orb_true_r |].
  intros _. by exists v.
Qed.

(** X17: whenever [Configure] returns, the diagnostics it leaves extend the
    ones it was given, and either they hold an error and [DataSourceData] and
    [ResourceData] are as they were, or they hold none and both are set to
    the one client built from the configuration, for which the server
    answered with status 200 and a version that is the minimum or above. *)
Theorem Configure_outcome p environ req resp resp' :
  Configure failure p environ remote req resp = Returns resp' ->
  provider.Diagnostics resp `prefix_of` provider.Diagnostics resp'
  /\ ((diag.HasError (provider.Diagnostics resp') = true
       /\ provider.DataSourceData resp' = provider.DataSourceData resp
       /\ provider.ResourceData resp' = provider.ResourceData resp)
      \/ (diag.HasError (provider.Diagnostics resp') = false
          /\ exists c unleashConfig v,
               unleashClient environ (provider.Config req)
                 (diag.AppendAll (provider.Diagnostics resp)
                    (provider.ConfigDiagnostics req))
               = (Some c, diag.AppendAll (provider.Diagnostics resp)
                            (provider.ConfigDiagnostics req))
               /\ provider.DataSourceData resp' = Some c
               /\ provider.ResourceData resp' = Some c
               /\ callValid (remote c)
               /\ unleash.Body (remote c) = Some unleashConfig
               /\ semver.NewVersion (unleash.Version unleashConfig) = inr v
               /\ 0 <= semver.Compare v minimumVersion)).
Proof.
  rewrite Configure_steps. cbv zeta.
  set (diags0 := diag.AppendAll _ _).
  assert (Hp0 : provider.Diagnostics resp `prefix_of` diags0)
    by apply AppendAll_prefix.
  destruct (diag.HasError diags0) eqn:He0.
  { intros [= <-]. simpl. split; [done |]. by left. }
  destruct (unleashClient _ _ _) as [[c |] diags1] eqn:Hc.
  - pose proof (unleashClient_keeps_diagnostics _ _ _ _ _ Hc) as [-> _].
    destruct (versionCheck failure remote (Some c) diags0) as [diags2 |] eqn:Hvc;
      [| done].
    assert (Hp2 : diags0 `prefix_of` diags2).
    { pose proof (versionCheck_path c diags0) as Hpath. rewrite Hvc in Hpath.
      inversion Hpath; subst.
      - apply Append_prefix.
      - apply checkIsSupportedVersion_length.
      - etrans; [apply Append_prefix | apply checkIsSupportedVersion_length]. }
    destruct (diag.HasError diags2) eqn:He2.
    { intros [= <-]. simpl. split; [by etrans |]. by left. }
    intros [= <-]. simpl. split; [by etrans |]. right. split; [done |].
    pose proof (versionCheck_path c diags0) as Hpath. rewrite Hvc in Hpath.
    inversion Hpath as
      [Hf Heq | | cfg Hv Hb Hl Heq | cfg o e Hv Hb Hl Ho Hen Heq | ]; subst.
    + unfold diag.AddError in He2.
      by rewrite HasError_Append, orb_true_r in He2.
    + destruct (checkIsSupportedVersion_passes _ _ He2) as (v & Hv1 & Hv2).
      by exists c, cfg, v.
    + destruct (checkIsSupportedVersion_passes _ _ He2) as (v & Hv1 & Hv2).
      by exists c, cfg, v.
  - intros [= <-]. simpl. apply unleashClient_None in Hc as He1.
    split; [| by left].
    etrans; [exact Hp0 |].
    pose proof (unleashClient_prefix environ (provider.Config req) diags0) as Hp1.
    by rewrite Hc in Hp1.
Qed.

(** X18: [Configure] returns, rather than panics, for every configuration
    and environment when the server's valid answers carry a body, with both
    latest versions whenever it says that it is not the latest. *)
Theorem Configure_returns p environ req resp :
  (forall c, answersInFull (remote c)) ->
  exists resp', Configure failure p environ remote req resp = Returns resp'.
Proof.
  intros Hfull. rewrite Configure_steps. cbv zeta.
  destruct (diag.HasError _); [by eauto |].
  destruct (unleashClient _ _ _) as [[c |] diags1]; [| by eauto].
  pose proof (versionCheck_path c
    (diag.AppendAll (provider.Diagnostics resp) (provider.ConfigDiagnostics req)))
    as Hpath.
  destruct (versionCheck failure remote (Some c) _) as [diags2 |].
  { destruct (diag.HasError diags2); by eauto. }
  exfalso. specialize (Hfull c).
  inversion Hpath as [ | Hv Hb | | | cfg Hv Hb Hl Hn]; subst.
  - destruct (Hfull Hv) as (cfg & Hb' & _). congruence.
  - destruct (Hfull Hv) as (cfg' & Hb' & Hlatest).
    assert (cfg' = cfg) as -> by congruence.
    destruct (Hlatest Hl) as [[o Ho] [e He]]. destruct Hn; congruence.
Qed.

(** X19: without a client the server is never asked: when the decoding left
    an error, or the base URL or the authorization is missing, [Configure]
    returns the same response whatever the server and the reporting of
    failed calls are, with [DataSourceData] and [ResourceData] as they
    were. *)
Theorem Configure_without_client p environ req resp failure' remote' :
  diag.HasError
    (diag.AppendAll (provider.Diagnostics resp) (provider.ConfigDiagnostics req))
  = true
  \/ strings.TrimSuffix
       (configValue environ (BaseUrl (provider.Config req)) "UNLEASH_URL") "/" = ""
  \/ configValue environ (Authorization (provider.Config req)) "AUTH_TOKEN" = "" ->
  Configure failure p environ remote req resp
  = Configure failure' p environ remote' req resp
  /\ exists diags,
      Configure failure p environ remote req resp
      = Returns {| provider.Diagnostics := diags;
                   provider.DataSourceData := provider.DataSourceData resp;
                   provider.ResourceData := provider.ResourceData resp |}
      /\ diag.HasError diags = true.
Proof.
  intros Hmissing. unfold Configure, setDiagnostics. cbv zeta.
  cbn [provider.Diagnostics provider.DataSourceData provider.ResourceData].
  destruct (diag.HasError (diag.AppendAll _ _)) eqn:He0.
  { split; [done |]. by eauto. }
  destruct (unleashClient _ _ _) as [[c |] diags1] eqn:Hc.
  - apply unleashClient_valid in Hc as (_ & Hb & Ha).
    destruct Hmissing as [? | [? | ?]]; done.
  - apply unleashClient_None in Hc.
    cbn [provider.Diagnostics provider.DataSourceData provider.ResourceData].
    rewrite Hc. split; [done |]. by eauto.
Qed.

(** X20: with a complete configuration and a server that is the latest and
    supported, [Configure] adds no diagnostic at all and hands the client to
    data sources and resources. *)
Theorem Configure_latest_server p environ req resp c diags1 unleashConfig v :
  diag.HasError
    (diag.AppendAll (provider.Diagnostics resp) (provider.ConfigDiagnostics req))
  = false ->
  unleashClient environ (provider.Config req)
    (diag.AppendAll (provider.Diagnostics resp) (provider.ConfigDiagnostics req))
  = (Some c, diags1) ->
  callValid (remote c) ->
  unleash.Body (remote c) = Some unleashConfig ->
  unleash.IsLatest (unleash.VersionInfo unleashConfig) = true ->
  semver.NewVersion (unleash.Version unleashConfig) = inr v ->
  0 <= semver.Compare v minimumVersion ->
  Configure failure p environ remote req resp
  = Returns {| provider.Diagnostics :=
                 diag.AppendAll (provider.Diagnostics resp)
                   (provider.ConfigDiagnostics req);
               provider.DataSourceData := Some c;
               provider.ResourceData := Some c |}.
Proof.
  intros He0 Hc Hv Hb Hl Hp Hge. rewrite Configure_steps. cbv zeta.
  rewrite He0, Hc.
  assert (versionCheck failure remote (Some c)
            (diag.AppendAll (provider.Diagnostics resp)
               (provider.ConfigDiagnostics req))
          = Returns (diag.AppendAll (provider.Diagnostics resp)
                       (provider.ConfigDiagnostics req))) as ->.
  { unfold versionCheck.
    rewrite ValidateApiResponse_callValid, Hb, Hl by done. cbn.
    by rewrite (checkIsSupportedVersion_supported _ v). }
  by rewrite He0.
Qed.

End ConfigureFacts.

Lemma latestServer_callValid c : callValid (latestServer c).
Proof. split; [done |]. eexists. by split. Qed.

Lemma oldServer_callValid c : callValid (oldServer c).
Proof. split; [done |]. eexists. by split. Qed.

Lemma versionCheck_latest_supported_witness :
  versionCheck sampleFailure latestServer (Some sampleClient) [] = Returns [].
Proof.
  exact (versionCheck_latest_supported sampleFailure latestServer sampleClient []
           _ _ (latestServer_callValid _) eq_refl eq_refl eq_refl
           ltac:(vm_compute; discriminate)).
Defined.

Lemma versionCheck_old_and_not_latest_witness :
  versionCheck sampleFailure oldServer (Some sampleClient) []
  = Returns [notLatestWarning "5.5.9" "5.8.0" "5.8.1"; unsupportedVersion "5.5.9"].
Proof.
  exact (proj1 (versionCheck_old_and_not_latest sampleFailure oldServer
           sampleClient [] _ "5.8.0" "5.8.1" _ (oldServer_callValid _)
           eq_refl eq_refl eq_refl eq_refl eq_refl eq_refl)).
Defined.

Lemma versionCheck_extends_witness :
  [] `prefix_of` [notLatestWarning "5.7.0" "5.8.0" "5.8.1"]
  /\ (length [notLatestWarning "5.7.0" "5.8.0" "5.8.1"] <= 0 + 2)%nat.
Proof.
  exact (versionCheck_extends sampleFailure outdatedServer sampleClient [] _ eq_refl).
Defined.

Lemma Configure_outcome_witness :
  provider.Diagnostics emptyResponse
  `prefix_of` [notLatestWarning "5.5.9" "5.8.0" "5.8.1"; unsupportedVersion "5.5.9"].
Proof.
  exact (proj1 (Configure_outcome sampleFailure oldServer (New "dev" ()) ∅
                  sampleRequest emptyResponse
                  {| provider.Diagnostics :=
                       [notLatestWarning "5.5.9" "5.8.0" "5.8.1";
                        unsupportedVersion "5.5.9"];
                     provider.DataSourceData := None;
                     provider.ResourceData := None |} eq_refl)).
Defined.

Lemma Configure_returns_witness :
  exists resp',
    Configure sampleFailure (New "dev" ()) ∅ latestServer sampleRequest emptyResponse
    = Returns resp'.
Proof.
  apply Configure_returns. intros c _. eexists. split; [reflexivity |].
  intros Hl. discriminate Hl.
Defined.

Lemma Configure_without_client_witness :
  Configure sampleFailure (New "dev" ()) ∅ latestServer
    {| provider.Config := {| BaseUrl := StringNull; Authorization := StringNull |};
       provider.ConfigDiagnostics := [] |} emptyResponse
  = Configure sampleFailure (New "dev" ()) ∅ unavailableServer
      {| provider.Config := {| BaseUrl := StringNull; Authorization := StringNull |};
         provider.ConfigDiagnostics := [] |} emptyResponse.
Proof.
  refine (proj1 (Configure_without_client sampleFailure latestServer (New "dev" ()) ∅
    {| provider.Config := {| BaseUrl := StringNull; Authorization := StringNull |};
       provider.ConfigDiagnostics := [] |} emptyResponse
    sampleFailure unavailableServer _)).
  right. left. reflexivity.
Defined.

Lemma Configure_latest_server_witness :
  Configure sampleFailure (New "dev" ()) ∅ latestServer sampleRequest emptyResponse
  = Returns {| provider.Diagnostics := [];
               provider.DataSourceData := Some sampleClient;
               provider.ResourceData := Some sampleClient |}.
Proof.
  exact (Configure_latest_server sampleFailure latestServer (New "dev" ()) ∅
           sampleRequest emptyResponse sampleClient [] _ _
           eq_refl eq_refl (latestServer_callValid _) eq_refl eq_refl eq_refl
           ltac:(vm_compute; discriminate)).
Defined.
